(** * Verification of the categorisation engine of app.py

    A shallow embedding of the PhonePe statement analyser (src/app.py):
    the line classifier and field extractor of [parse_phonepe_pdf], the
    keyword/name-map categoriser [categorize_transactions], the learning
    loop of [main], and the CSV export.

    Text is ASCII ([String.string], or [list ascii] inside the regular
    expression matchers).  Python's [str.lower], [str.strip], [str.split]
    and [\d] are modelled on the ASCII range.  Amounts, which Python holds
    as floats parsed from strings with exactly two fractional digits, are
    modelled as exact integer numbers of paise (cents). *)

From Stdlib Require Import Ascii String ZArith Lia DecimalString.
From stdpp Require Import base gmap strings list.

Open Scope string_scope.

(* ================================================================== *)
(** ** Python string primitives (ASCII range) *)

Module Py.

(** [str.isspace] on ASCII: \t \n \v \f \r, the separators \x1c-\x1f,
    and the space. *)
Definition is_space (c : ascii) : bool :=
  let n := nat_of_ascii c in
  (((9 <=? n) && (n <=? 13)) || ((28 <=? n) && (n <=? 32)))%nat.

(** [str.lower] on one ASCII character. *)
Definition lower_char (c : ascii) : ascii :=
  let n := nat_of_ascii c in
  if ((65 <=? n) && (n <=? 90))%nat then ascii_of_nat (n + 32)%nat else c.

Fixpoint lower (s : string) : string :=
  match s with
  | EmptyString => EmptyString
  | String c t => String (lower_char c) (lower t)
  end.

Fixpoint lstrip (s : string) : string :=
  match s with
  | EmptyString => EmptyString
  | String c t => if is_space c then lstrip t else s
  end.

Fixpoint rstrip (s : string) : string :=
  match s with
  | EmptyString => EmptyString
  | String c t =>
      let t' := rstrip t in
      if String.eqb t' EmptyString && is_space c then EmptyString
      else String c t'
  end.

(** [str.strip()] with no argument. *)
Definition strip (s : string) : string := rstrip (lstrip s).

(** [str.split()] with no argument: maximal runs of non-space characters;
    [cur] is the word being read. *)
Fixpoint split_aux (cur : string) (s : string) : list string :=
  match s with
  | EmptyString => if String.eqb cur EmptyString then [] else [cur]
  | String c t =>
      if is_space c then
        if String.eqb cur EmptyString then split_aux EmptyString t
        else cur :: split_aux EmptyString t
      else split_aux (cur ++ String c EmptyString) t
  end.

Definition split (s : string) : list string := split_aux EmptyString s.

Fixpoint startswith (p s : string) : bool :=
  match p, s with
  | EmptyString, _ => true
  | String a p', String b s' => Ascii.eqb a b && startswith p' s'
  | String _ _, EmptyString => false
  end.

(** [needle in hay] for strings: substring test. *)
Fixpoint contains (needle hay : string) : bool :=
  startswith needle hay ||
  match hay with
  | EmptyString => false
  | String _ t => contains needle t
  end.

End Py.

(* ================================================================== *)
(** ** Data model *)

(** A calendar date ([datetime.date]). *)
Record date := mkDate { year : Z; month : Z; day : Z }.

(** One row of the transaction DataFrame; [Category] is [None] while the
    column does not exist yet.  [Amount] is in paise. *)
Record row := mkRow {
  Date : date;
  Name : string;
  Debit_Credit : string;
  Amount : Z;
  Category : option string
}.

Definition DataFrame := list row.

(** [keyword_dict]: a Python dict, iterated in insertion order, so an
    association list; keys are unique. *)
Definition KeywordDict := list (string * list string).

(** [name_to_category]: a dict used only by key lookup. *)
Abbreviation NameMap := (gmap string string).

Fixpoint kd_lookup (k : string) (kd : KeywordDict) : option (list string) :=
  match kd with
  | [] => None
  | (k', v) :: r => if String.eqb k k' then Some v else kd_lookup k r
  end.

(** [kd[k] = v] for a key already present: the value is replaced in place,
    the position of the key is kept. *)
Fixpoint kd_set (k : string) (v : list string) (kd : KeywordDict) : KeywordDict :=
  match kd with
  | [] => []
  | (k', v') :: r => if String.eqb k k' then (k', v) :: r else (k', v') :: kd_set k v r
  end.

Definition kd_mem (k : string) (kd : KeywordDict) : bool :=
  match kd_lookup k kd with Some _ => true | None => false end.

(** [default_keywords] (app.py lines 126-136). *)
Definition default_keywords : KeywordDict := [
  ("Food", ["zomato"; "swiggy"; "restaurant"; "pizza"]);
  ("Groceries", ["d-mart"; "big bazaar"; "grocery"]);
  ("Recharge/Bill", ["recharge"; "electricity"; "mobile"; "water"]);
  ("Shopping", ["amazon"; "flipkart"; "myntra"]);
  ("Entertainment", ["netflix"; "hotstar"; "spotify"]);
  ("Transport", ["uber"; "ola"; "fuel"; "metro"]);
  ("Education", ["institute"; "college"; "fees"]);
  ("Health", ["pharmacy"; "hospital"; "clinic"]);
  ("Other", [])
].

(* ================================================================== *)
(** ** Categorisation ([categorize_transactions], lines 141-158) *)

(** The normalised name [name.lower().strip()]. *)
Definition normalize (name : string) : string := Py.strip (Py.lower name).

(** The loop [for category, keywords in keyword_dict.items()] with its
    [any(keyword.lower() in name_lower for keyword in keywords)] test and
    [break]. *)
Fixpoint scan_keywords (kd : KeywordDict) (name_lower : string) : option string :=
  match kd with
  | [] => None
  | (category, keywords) :: rest =>
      if existsb (fun keyword => Py.contains (Py.lower keyword) name_lower) keywords
      then Some category
      else scan_keywords rest name_lower
  end.

(** The category appended for one name. *)
Definition categorize_name (kd : KeywordDict) (name_map : NameMap) (name : string) : string :=
  let name_lower := normalize name in
  match name_map !! name_lower with
  | Some c => c
  | None =>
      match scan_keywords kd name_lower with
      | Some c => c
      | None => "Other"
      end
  end.

(** Row [r] with its Category cell set to [c]. *)
Definition with_category (r : row) (c : string) : row :=
  {| Date := Date r; Name := Name r; Debit_Credit := Debit_Credit r;
     Amount := Amount r; Category := Some c |}.

(** [df["Category"] = categories]: the column is written row by row. *)
Fixpoint assign_category (df : DataFrame) (categories : list string) : DataFrame :=
  match df, categories with
  | r :: df', c :: cs =>
      with_category r c :: assign_category df' cs
  | _, _ => []
  end.

(** The function returns [df], the very object it was given, after the
    assignment above: its value here is the new state of that object. *)
Definition categorize_transactions (df : DataFrame) (keyword_dict : KeywordDict)
    (name_map : NameMap) : DataFrame :=
  let categories := map (categorize_name keyword_dict name_map) (map Name df) in
  assign_category df categories.

(** The columns other than Category. *)
Definition row_base (r : row) : date * string * string * Z :=
  (Date r, Name r, Debit_Credit r, Amount r).

(** The objects the call can reach: the batch it mutates, and the two maps
    it only reads.  [categorize_step] returns the state after the call and
    the returned value (an alias of the batch). *)
Record env := mkEnv { env_df : DataFrame; env_kd : KeywordDict; env_nm : NameMap }.

Definition categorize_step (e : env) : env * DataFrame :=
  let df' := categorize_transactions (env_df e) (env_kd e) (env_nm e) in
  (mkEnv df' (env_kd e) (env_nm e), df').

(* ================================================================== *)
(** ** Learning from corrections ([main], lines 246-266) *)

(** One turn of [for word in words]: append [word] to
    [keyword_dict[new_cat]] unless it is already there.  The key is always
    present here (it was added before the loop); the [None] branch, a
    [KeyError] in Python, is unreachable. *)
Definition add_word (new_cat : string) (kd : KeywordDict) (word : string) : KeywordDict :=
  match kd_lookup new_cat kd with
  | Some ws => if existsb (String.eqb word) ws then kd else kd_set new_cat (ws ++ [word])%list kd
  | None => kd
  end.

(** The body of the loop for one row: [old_cat] from the categorised
    batch, [new_cat] and [name] from the edited table. *)
Definition learn_correction (kd : KeywordDict) (nm : NameMap)
    (old_cat new_cat name : string) : KeywordDict * NameMap :=
  if negb (String.eqb new_cat old_cat) && negb (String.eqb (Py.strip new_cat) EmptyString)
  then
    let kd1 := if kd_mem new_cat kd then kd else (kd ++ [(new_cat, [])])%list in
    let nm1 := <[Py.lower name := new_cat]> nm in
    let words := Py.split (Py.lower name) in
    (fold_left (add_word new_cat) words kd1, nm1)
  else (kd, nm).

(** Whether the guard [new_cat != old_cat and new_cat.strip()] holds. *)
Definition is_correction (old_cat new_cat : string) : bool :=
  negb (String.eqb new_cat old_cat) && negb (String.eqb (Py.strip new_cat) EmptyString).

Definition cat_of (r : row) : string := default EmptyString (Category r).

(** The whole loop over the rows [i] of the categorised batch [df] and of
    the edited table; returns the maps and the flag [changed]. *)
Fixpoint learn_loop (kd : KeywordDict) (nm : NameMap) (changed : bool)
    (rows : list (row * row)) : KeywordDict * NameMap * bool :=
  match rows with
  | [] => (kd, nm, changed)
  | (r_old, r_new) :: rest =>
      let '(kd', nm') := learn_correction kd nm (cat_of r_old) (cat_of r_new) (Name r_new) in
      learn_loop kd' nm' (changed || is_correction (cat_of r_old) (cat_of r_new)) rest
  end.

(** A correction as given by the presentation layer. *)
Record correction := mkCorrection { c_old : string; c_new : string; c_name : string }.

(** The maps after a sequence of corrections within one session. *)
Definition learn_all (kd : KeywordDict) (nm : NameMap) (cs : list correction)
    : KeywordDict * NameMap :=
  fold_left (fun '(kd, nm) c => learn_correction kd nm (c_old c) (c_new c) (c_name c)) cs (kd, nm).

(** Spec-side reading of "every token not already present, in first-seen
    order": keep the first occurrence of each token. *)
Fixpoint first_seen (l : list string) : list string :=
  match l with
  | [] => []
  | x :: r => x :: List.filter (fun y => negb (String.eqb y x)) (first_seen r)
  end.

(* ================================================================== *)
(** ** Regular expressions of [parse_phonepe_pdf] (lines 74-108)

    A backtracking matcher is modelled by the list of the remainders of
    the input it can leave, in the order Python's [re] engine tries them:
    the first element is the match [re] reports, an empty list means no
    match. *)

Module Re.

Local Open Scope list_scope.

Definition M := list ascii -> list (list ascii).

Definition is_digit (c : ascii) : bool :=
  let n := nat_of_ascii c in ((48 <=? n) && (n <=? 57))%nat.

Definition is_alpha (c : ascii) : bool :=
  let n := nat_of_ascii c in (((65 <=? n) && (n <=? 90)) || ((97 <=? n) && (n <=? 122)))%nat.

(** [.] : any character but a newline. *)
Definition not_newline (c : ascii) : bool := negb (Ascii.eqb c "010"%char).

(** A one-character class. *)
Definition chr (p : ascii -> bool) : M := fun s =>
  match s with
  | c :: t => if p c then [t] else []
  | [] => []
  end.

(** A literal. *)
Fixpoint lit (w : list ascii) : M := fun s =>
  match w with
  | [] => [s]
  | a :: w' =>
      match s with
      | b :: s' => if Ascii.eqb a b then lit w' s' else []
      | [] => []
      end
  end.

Definition seq (m1 m2 : M) : M := fun s => flat_map m2 (m1 s).

Definition alt (m1 m2 : M) : M := fun s => m1 s ++ m2 s.

(** [m{n}]. *)
Fixpoint rep (n : nat) (m : M) : M :=
  match n with
  | O => fun s => [s]
  | S n' => seq m (rep n' m)
  end.

(** Greedy [p*] for a one-character class: longest run first. *)
Fixpoint star (p : ascii -> bool) (s : list ascii) : list (list ascii) :=
  match s with
  | c :: t => (if p c then star p t else []) ++ [s]
  | [] => [s]
  end.

(** Greedy [p+]. *)
Definition plus (p : ascii -> bool) : M := seq (chr p) (star p).

(** [re.match]: anchored at the start, no end anchor. *)
Definition matches (m : M) (s : list ascii) : bool :=
  match m s with [] => false | _ => true end.

(** Group [( grp )] after the prefix [pre], for the first match at the
    start of [s]: the text [grp] consumed. *)
Definition capture (pre grp : M) (s : list ascii) : option (list ascii) :=
  head (flat_map (fun r1 => map (fun r2 => firstn (length r1 - length r2) r1) (grp r1)) (pre s)).

(** [re.search(...).group(1)]: the leftmost starting position wins. *)
Fixpoint search_capture (pre grp : M) (s : list ascii) : option (list ascii) :=
  match capture pre grp s with
  | Some g => Some g
  | None =>
      match s with
      | [] => None
      | _ :: t => search_capture pre grp t
      end
  end.

End Re.

Definition L (s : string) : list ascii := list_ascii_of_string s.

(** [r'^[A-Za-z]{3} \d{2}, \d{4} .* (Debit|Credit) INR \d'] *)
Definition transaction_pattern : Re.M :=
  Re.seq (Re.rep 3 (Re.chr Re.is_alpha)) (
  Re.seq (Re.lit (L " ")) (
  Re.seq (Re.rep 2 (Re.chr Re.is_digit)) (
  Re.seq (Re.lit (L ", ")) (
  Re.seq (Re.rep 4 (Re.chr Re.is_digit)) (
  Re.seq (Re.lit (L " ")) (
  Re.seq (Re.star Re.not_newline) (
  Re.seq (Re.lit (L " ")) (
  Re.seq (Re.alt (Re.lit (L "Debit")) (Re.lit (L "Credit"))) (
  Re.seq (Re.lit (L " INR ")) (
  Re.chr Re.is_digit)))))))))).

(** [is_transaction_line] (line 74): [re.match] returns a match object,
    truthy exactly when there is a match. *)
Definition is_transaction_line (line : string) : bool :=
  Re.matches transaction_pattern (L line).

(** [r'^([A-Za-z]{3} \d{2}, \d{4})'] *)
Definition date_group : Re.M :=
  Re.seq (Re.rep 3 (Re.chr Re.is_alpha)) (
  Re.seq (Re.lit (L " ")) (
  Re.seq (Re.rep 2 (Re.chr Re.is_digit)) (
  Re.seq (Re.lit (L ", ")) (
  Re.rep 4 (Re.chr Re.is_digit))))).

Definition date_capture (line : string) : option (list ascii) :=
  Re.capture (fun s => [s]) date_group (L line).

(** [r'INR ([\d,]+\.\d{2})'] *)
Definition is_digit_or_comma (c : ascii) : bool := Re.is_digit c || Ascii.eqb c ",".

Definition amount_prefix : Re.M := Re.lit (L "INR ").

Definition amount_group : Re.M :=
  Re.seq (Re.plus is_digit_or_comma) (
  Re.seq (Re.lit (L ".")) (
  Re.rep 2 (Re.chr Re.is_digit))).

Definition amount_capture (line : string) : option (list ascii) :=
  Re.search_capture amount_prefix amount_group (L line).

(* ================================================================== *)
(** ** Field extraction (lines 87-121) *)

Definition digit_val (c : ascii) : Z := Z.of_nat (nat_of_ascii c - 48).

Definition month_abbrs : list string :=
  ["jan"; "feb"; "mar"; "apr"; "may"; "jun"; "jul"; "aug"; "sep"; "oct"; "nov"; "dec"].

Fixpoint index_of (x : string) (l : list string) (i : Z) : option Z :=
  match l with
  | [] => None
  | y :: r => if String.eqb x y then Some i else index_of x r (i + 1)%Z
  end.

Definition is_leap (y : Z) : bool :=
  ((Z.eqb (y mod 4) 0 && negb (Z.eqb (y mod 100) 0)) || Z.eqb (y mod 400) 0)%Z.

Definition days_in_month (y m : Z) : Z :=
  (if Z.eqb m 2 then (if is_leap y then 29 else 28)
   else if existsb (Z.eqb m) [4; 6; 9; 11] then 30 else 31)%Z.

(** The day alternatives of [%d], [3[01]|[12]\d|0[1-9]|[1-9]| [1-9]],
    on the two characters followed by [", "]: only the two-character
    alternatives can be followed by the comma. *)
Definition day_re (d1 d2 : ascii) : bool :=
  (Ascii.eqb d1 "3" && (Ascii.eqb d2 "0" || Ascii.eqb d2 "1"))
  || ((Ascii.eqb d1 "1" || Ascii.eqb d1 "2") && Re.is_digit d2)
  || (Ascii.eqb d1 "0" && Re.is_digit d2 && negb (Ascii.eqb d2 "0")).

(** [datetime.strptime(date_str, "%b %d, %Y").date()] on a string of the
    shape the date group captures.  [%b] matches an English month
    abbreviation case-insensitively, [%Y] four digits; the constructor of
    [date] then rejects year 0 and days past the end of the month
    ([ValueError], here [None]). *)
Definition strptime_b_d_Y (s : list ascii) : option date :=
  match s with
  | [m1; m2; m3; sp1; d1; d2; cm; sp2; y1; y2; y3; y4] =>
      if Ascii.eqb sp1 " " && Ascii.eqb cm "," && Ascii.eqb sp2 " "
         && day_re d1 d2 && forallb Re.is_digit [y1; y2; y3; y4] then
        match index_of (Py.lower (string_of_list_ascii [m1; m2; m3])) month_abbrs 1 with
        | Some mo =>
            let y := (digit_val y1 * 1000 + digit_val y2 * 100 + digit_val y3 * 10 + digit_val y4)%Z in
            let d := (digit_val d1 * 10 + digit_val d2)%Z in
            if ((1 <=? y) && (1 <=? d) && (d <=? days_in_month y mo))%Z
            then Some (mkDate y mo d) else None
        | None => None
        end
      else None
  | _ => None
  end.

Fixpoint str_drop (n : nat) (s : string) : string :=
  match n, s with
  | O, _ => s
  | S n', String _ t => str_drop n' t
  | S _, EmptyString => EmptyString
  end.

(** [s.split(sep)[0]]: the text before the first [sep]. *)
Fixpoint before_first (sep s : string) : string :=
  if Py.startswith sep s then EmptyString
  else match s with
       | EmptyString => EmptyString
       | String c t => String c (before_first sep t)
       end.

(** The text after the first [sep] ([None] if [sep] does not occur). *)
Fixpoint after_first (sep s : string) : option string :=
  if Py.startswith sep s then Some (str_drop (String.length sep) s)
  else match s with
       | EmptyString => None
       | String _ t => after_first sep t
       end.

(** [s.split(sep)[1]]: the text between the first and second [sep];
    an [IndexError] ([None]) when [sep] does not occur. *)
Definition split_1 (sep s : string) : option string :=
  option_map (before_first sep) (after_first sep s).

(** [float(x)] on the strings that reach it, [[0-9]*.[0-9][0-9]]; other
    strings are not produced by the amount group.  Python returns the
    double nearest to the decimal; the model keeps the decimal itself, in
    paise.  Below 10^15 paise (at most 15 significant digits) distinct
    decimals have distinct nearest doubles, so there the two carry the
    same information; above it Python merges amounts the model keeps
    apart (1000000000000000.01 gives 1e15), and the properties that read
    an amount's value are stated under that bound. *)
Definition float_cents (s : list ascii) : option Z :=
  match rev s with
  | f2 :: f1 :: dot :: rint =>
      if Ascii.eqb dot "." && forallb Re.is_digit (f1 :: f2 :: rint) then
        Some (fold_right (fun c acc => acc * 10 + digit_val c) 0 rint * 100
              + digit_val f1 * 10 + digit_val f2)%Z
      else None
  | _ => None
  end.

(** The body of the [try] block for one accepted line; [None] is the
    [except] branch (the line is dropped). *)
Definition parse_line (line : string) : option row :=
  date_str ← date_capture line;
  date ← strptime_b_d_Y date_str;
  name ← (if Py.contains "Paid to" line then
            option_map (fun s => Py.strip (before_first "Debit" s)) (split_1 "Paid to" line)
          else if Py.contains "Received from" line then
            option_map (fun s => Py.strip (before_first "Credit" s)) (split_1 "Received from" line)
          else Some "Unknown");
  let txn_type := if Py.contains "Debit" line then "Debit" else "Credit" in
  amount ← (match amount_capture line with
            | Some g => float_cents (List.filter (fun c => negb (Ascii.eqb c ",")) g)
            | None => Some 0%Z
            end);
  Some {| Date := date; Name := name; Debit_Credit := txn_type; Amount := amount;
          Category := None |}.

(** [parse_phonepe_pdf] on the lines of the extracted page texts. *)
Definition parse_lines (lines : list string) : DataFrame :=
  omap parse_line (List.filter is_transaction_line lines).

(* ================================================================== *)
(** ** Export ([edited_df.to_csv(index=False)], lines 304-309) *)

Definition z_str (z : Z) : string := NilEmpty.string_of_int (Z.to_int z).

(** The decimal digit character of [0 <= k < 10]. *)
Definition digit_char (k : Z) : ascii := ascii_of_nat (48 + Z.to_nat k).

(** [%0wd] for [0 <= z < 10^w]: the [w] low-order decimal digits. *)
Fixpoint fixed_digits (w : nat) (z : Z) : string :=
  match w with
  | O => EmptyString
  | S w' => (fixed_digits w' (z / 10) ++ String (digit_char (z mod 10)) EmptyString)%string
  end.

(** [str(date)], i.e. [date.isoformat()]: ["%04d-%02d-%02d"]. *)
Definition iso_date (d : date) : string :=
  (fixed_digits 4 (year d) ++ "-" ++ fixed_digits 2 (month d) ++ "-" ++ fixed_digits 2 (day d))%string.

(** [repr] of the float holding [c] paise, as pandas writes a float
    column: the shortest round-tripping decimal, with at least one
    fractional digit and no trailing zero.  Valid for [0 <= c < 10^15],
    where the decimal has at most 15 significant digits and [repr] uses
    no exponent; larger amounts print differently in Python ([1e+17]),
    and the properties about the printed amount assume the bound. *)
Definition float_repr_cents (c : Z) : string :=
  let ip := (c / 100)%Z in
  let fp := (c mod 100)%Z in
  let frac := if Z.eqb (fp mod 10) 0 then fixed_digits 1 (fp / 10) else fixed_digits 2 fp in
  (z_str ip ++ "." ++ frac)%string.

Definition export_header : list string := ["Date"; "Name"; "Debit/Credit"; "Amount"; "Category"].

(** One CSV row, field by field (a missing category is written empty). *)
Definition export_fields (r : row) : list string :=
  [iso_date (Date r); Name r; Debit_Credit r; float_repr_cents (Amount r);
   default EmptyString (Category r)].

Definition export_table (df : DataFrame) : list (list string) :=
  export_header :: map export_fields df.

(* ================================================================== *)
(** ** One run of [main] on a loaded batch (lines 234-309) *)

(** [st.data_editor]: the user may replace the category of row [i]
    ([Some c]) or leave it ([None]). *)
Fixpoint apply_edits (df : DataFrame) (edits : list (option string)) : DataFrame :=
  match df, edits with
  | r :: df', e :: es =>
      {| Date := Date r; Name := Name r; Debit_Credit := Debit_Credit r; Amount := Amount r;
         Category := match e with Some c => Some c | None => Category r end |}
        :: apply_edits df' es
  | _, [] => df
  | [], _ => []
  end.

(** [groupby("Category")["Amount"].sum()]: the totals per category (the
    display order of [sort_values] is not modelled).  The groups and their
    keys are the code's; the totals are exact sums in paise where pandas
    adds floats, and no property below reads their values. *)
Definition summarize (df : DataFrame) : gmap string Z :=
  fold_left (fun m r =>
    match Category r with
    | Some c => <[c := (default 0 (m !! c) + Amount r)%Z]> m
    | None => m
    end) df ∅.

Definition is_debit (r : row) : bool := String.eqb (Debit_Credit r) "Debit".

Record run_result := mkRun {
  run_categorized : DataFrame;   (* [df] after the initial categorisation *)
  run_shown : DataFrame;         (* [edited_df], summarised and exported *)
  run_summary : gmap string Z;
  run_export : list (list string);
  run_kd : KeywordDict;
  run_nm : NameMap;              (* also what [save_name_category_map] stores *)
  run_changed : bool
}.

Definition main_run (df : DataFrame) (kd : KeywordDict) (nm : NameMap)
    (edits : list (option string)) : run_result :=
  let debits_df := List.filter is_debit df in
  let df1 := categorize_transactions debits_df kd nm in
  let edited := apply_edits df1 edits in
  let '(kd', nm', changed) := learn_loop kd nm false (zip df1 edited) in
  (* [debits_df] is the object [df1] already: it carries the first categories *)
  let shown := if changed then categorize_transactions df1 kd' nm' else edited in
  mkRun df1 shown (summarize shown) (export_table shown) kd' nm' changed.

(* ================================================================== *)
(** ** The learned-name store ([init_db], [load_name_category_map],
    [save_name_category_map], lines 18-54) *)

(** The table [name_category_map] of [phonepe_finance.db]: [None] while
    it does not exist; [name] is its primary key, so a finite map. *)
Definition Table := option (gmap string string).

(** Upserting key/value pairs in order, later pairs overriding: both the
    dict comprehension [{name: category for name, category in rows}] and
    the loop of [INSERT ... ON CONFLICT(name) DO UPDATE]. *)
Definition insert_rows (rows : list (string * string)) (m : gmap string string)
    : gmap string string :=
  fold_left (fun m '(name, category) => <[name := category]> m) rows m.

(** [CREATE TABLE IF NOT EXISTS]: an existing table is left as it is. *)
Definition init_db (t : Table) : Table :=
  match t with
  | None => Some ∅
  | Some m => Some m
  end.

(** [SELECT name, category] then the dict comprehension; [None] is the
    [sqlite3.OperationalError] of a missing table.  The rows come in the
    order the database returns them ([map_to_list]); their names are
    distinct. *)
Definition load_name_category_map (t : Table) : option NameMap :=
  m ← t; Some (insert_rows (map_to_list m) ∅).

(** One upsert per item of the dict.  Its keys are distinct, so the
    order of the items does not change the resulting table. *)
Definition save_name_category_map (name_category_dict : NameMap) (t : Table) : Table :=
  m ← t; Some (insert_rows (map_to_list name_category_dict) m).

(* ================================================================== *)
(** ** Pages of the statement ([parse_phonepe_pdf], lines 71-121) *)

(** [s.split(sep)] for a one-character separator: the pieces between
    separators, empty ones included. *)
Fixpoint split_char_aux (sep : ascii) (cur s : string) : list string :=
  match s with
  | EmptyString => [cur]
  | String c t =>
      if Ascii.eqb c sep then cur :: split_char_aux sep EmptyString t
      else split_char_aux sep (cur ++ String c EmptyString) t
  end.

Definition split_char (sep : ascii) (s : string) : list string :=
  split_char_aux sep EmptyString s.

Definition newline : ascii := "010"%char.

(** The transaction lines of one page; [page.extract_text()] is [None]
    for a page without text, and [if not text: continue] also skips the
    empty text. *)
Definition page_transactions (text : option string) : list string :=
  match text with
  | None => []
  | Some t =>
      if String.eqb t EmptyString then []
      else List.filter is_transaction_line (split_char newline t)
  end.

(** The function on the texts of the pages, in page order: the lines are
    collected first, then each is parsed in its [try] block. *)
Definition parse_phonepe_pdf (pages : list (option string)) : DataFrame :=
  let transactions := flat_map page_transactions pages in
  omap parse_line transactions.

(* ================================================================== *)
(** ** The upload dispatch ([main], line 211) *)

(** [uploaded_file.name.split(".")[-1].lower()]; the list [split]
    returns is never empty. *)
Definition file_ext (name : string) : string :=
  Py.lower (List.last (split_char "." name) EmptyString).

(* ================================================================== *)
(** ** The chatbot ([answer_nlp_question], lines 169-189) *)




(** One line of the context, [f"On {row['Date']}, paid {row['Amount']}
    INR to {row['Name']} in category {row['Category']}.\n"]. *)
Definition row_context (r : row) : string :=
  ("On " ++ iso_date (Date r) ++ ", paid " ++ float_repr_cents (Amount r) ++ " INR to "
   ++ Name r ++ " in category " ++ cat_of r ++ "." ++ String newline EmptyString)%string.

Definition full_context (df : DataFrame) : string :=
  fold_left (fun context r => (context ++ row_context r)%string) df EmptyString.

(** [context[:1800]] when it is longer. *)
Definition qa_context (df : DataFrame) : string :=
  let context := full_context df in
  if (1800 <? String.length context)%nat then substring 0 1800 context else context.


(* ================================================================== *)
(** ** Spec-side definitions *)

(** Spec-side reading of "some keyword is a case-insensitive substring of
    the normalised name". *)
Definition keyword_hit (name_lower : string) (keywords : list string) : Prop :=
  exists kw x y, In kw keywords /\ name_lower = (x ++ Py.lower kw ++ y)%string.

(** The value list of [keyword_dict[new_cat]] after the loop over
    [words] (the fold of [add_word] on that one list). *)
Definition add_words (ws words : list string) : list string :=
  fold_left (fun acc w => if existsb (String.eqb w) acc then acc else (acc ++ [w])%list) words ws.

(** The number a string of decimal digits denotes. *)
Fixpoint dec_value_aux (acc : Z) (s : string) : Z :=
  match s with
  | EmptyString => acc
  | String c t => dec_value_aux (acc * 10 + digit_val c)%Z t
  end.

Definition dec_value (s : string) : Z := dec_value_aux 0%Z s.

Definition digits_only (s : string) : Prop := forallb Re.is_digit (L s) = true.

(** A date [datetime.date] can hold, with a day of at most 31. *)
Definition date_ok (d : date) : Prop :=
  (1 <= year d <= 9999 /\ 1 <= month d <= 12 /\ 1 <= day d <= 31)%Z.

Definition no_hit (name_lower : string) (entry : string * list string) : Prop :=
  ~ keyword_hit name_lower (snd entry).

Definition not_in (ws : list string) (w : string) : bool := negb (existsb (String.eqb w) ws).

(* ================================================================== *)
(** * Properties *)

(** ** Strings *)

Lemma startswith_spec (p s : string) :
  Py.startswith p s = true <-> exists y, s = (p ++ y)%string.
Proof.
  revert s; induction p as [|a p IH]; intros s; simpl.
  - split; [intros _; now exists s | auto].
  - destruct s as [|b s].
    + split; [discriminate | intros [y Hy]; discriminate].
    + rewrite andb_true_iff, Ascii.eqb_eq, IH. split.
      * intros [-> [y ->]]. now exists y.
      * intros [y Hy]. injection Hy as -> ->. eauto.
Qed.

Lemma append_empty_inv (x y : string) : (x ++ y)%string = EmptyString -> x = EmptyString /\ y = EmptyString.
Proof. destruct x; simpl; [auto | discriminate]. Qed.

Lemma contains_spec (n h : string) :
  Py.contains n h = true <-> exists x y, h = (x ++ n ++ y)%string.
Proof.
  induction h as [|c t IH]; simpl.
  - rewrite orb_false_r, startswith_spec. split.
    + intros [y Hy]. exists EmptyString, y. exact Hy.
    + intros [x [y Hy]]. symmetry in Hy. apply append_empty_inv in Hy as [-> Hy].
      exists y. now rewrite Hy.
  - rewrite orb_true_iff, startswith_spec, IH. split.
    + intros [[y Hy] | [x [y Hy]]].
      * exists EmptyString, y. exact Hy.
      * exists (String c x), y. now rewrite Hy.
    + intros [[|c' x] [y Hy]].
      * left. now exists y.
      * right. injection Hy as -> ->. eauto.
Qed.

(** ** Categorisation *)

Lemma keyword_test_spec (name_lower : string) (keywords : list string) :
  existsb (fun keyword => Py.contains (Py.lower keyword) name_lower) keywords = true
  <-> keyword_hit name_lower keywords.
Proof.
  rewrite existsb_exists. unfold keyword_hit. split.
  - intros [kw [Hin Hc]]. apply contains_spec in Hc as [x [y Hy]]. eauto.
  - intros [kw [x [y [Hin Hy]]]]. exists kw. split; [exact Hin|].
    apply contains_spec. eauto.
Qed.

Lemma scan_keywords_some (kd : KeywordDict) (nl c : string) :
  scan_keywords kd nl = Some c <->
  exists pre kws rest, kd = (pre ++ (c, kws) :: rest)%list /\
    Forall (no_hit nl) pre /\ keyword_hit nl kws.
Proof.
  induction kd as [|[cat kws] kd IH]; simpl.
  - split; [discriminate|]. intros [pre [kws [rest [H _]]]].
    destruct pre; discriminate.
  - destruct (existsb _ kws) eqn:E.
    + apply keyword_test_spec in E. split.
      * intros H. injection H as <-. exists [], kws, kd. auto.
      * intros [[|[c0 k0] pre] [kws' [rest [Hkd [Hpre Hhit]]]]].
        -- simpl in Hkd. now injection Hkd as -> _ _.
        -- simpl in Hkd. injection Hkd as -> -> _.
           inversion Hpre as [|? ? Hno _]. now contradiction Hno.
    + rewrite IH. split.
      * intros [pre [kws' [rest [-> [Hpre Hhit]]]]].
        exists ((cat, kws) :: pre), kws', rest. split; [reflexivity|]. split; [|exact Hhit].
        constructor; [|exact Hpre]. unfold no_hit; simpl.
        rewrite <- keyword_test_spec, E. discriminate.
      * intros [[|[c0 k0] pre] [kws' [rest [Hkd [Hpre Hhit]]]]].
        -- simpl in Hkd. injection Hkd as -> -> _.
           apply keyword_test_spec in Hhit. congruence.
        -- simpl in Hkd. injection Hkd as -> -> ->.
           inversion Hpre; subst. exists pre, kws', rest. auto.
Qed.

Lemma scan_keywords_none (kd : KeywordDict) (nl : string) :
  scan_keywords kd nl = None <-> Forall (no_hit nl) kd.
Proof.
  induction kd as [|[cat kws] kd IH]; simpl.
  - split; auto.
  - destruct (existsb _ kws) eqn:E.
    + split; [discriminate|]. intros H. inversion H as [|? ? Hno _]; subst.
      unfold no_hit in Hno; simpl in Hno. apply keyword_test_spec in E. contradiction.
    + rewrite IH. split.
      * intros H. constructor; [|exact H]. unfold no_hit; simpl.
        rewrite <- keyword_test_spec, E. discriminate.
      * intros H. now inversion H.
Qed.

Lemma categorize_transactions_lookup (df : DataFrame) (kd : KeywordDict) (nm : NameMap) (i : nat) :
  categorize_transactions df kd nm !! i
  = (fun r => with_category r (categorize_name kd nm (Name r))) <$> df !! i.
Proof.
  unfold categorize_transactions. revert i.
  induction df as [|r df IH]; intros i; [reflexivity|].
  destruct i; simpl; [reflexivity|]. apply IH.
Qed.

Lemma categorize_transactions_map (df : DataFrame) (kd : KeywordDict) (nm : NameMap) :
  categorize_transactions df kd nm
  = map (fun r => with_category r (categorize_name kd nm (Name r))) df.
Proof.
  unfold categorize_transactions.
  induction df as [|r df IH]; simpl; [reflexivity|]. now rewrite IH.
Qed.

(** ** The keyword dictionary *)

Lemma kd_set_keys (k : string) (v : list string) (kd : KeywordDict) :
  map fst (kd_set k v kd) = map fst kd.
Proof.
  induction kd as [|[k' v'] kd IH]; simpl; [reflexivity|].
  destruct (String.eqb k k'); simpl; [reflexivity|]. now rewrite IH.
Qed.

Lemma kd_lookup_set_eq (k : string) (v w : list string) (kd : KeywordDict) :
  kd_lookup k kd = Some w -> kd_lookup k (kd_set k v kd) = Some v.
Proof.
  induction kd as [|[k' v'] kd IH]; simpl; [discriminate|].
  destruct (String.eqb k k') eqn:E; simpl; rewrite E; auto.
Qed.

Lemma kd_lookup_set_ne (k k'' : string) (v : list string) (kd : KeywordDict) :
  k'' <> k -> kd_lookup k'' (kd_set k v kd) = kd_lookup k'' kd.
Proof.
  intros Hne. induction kd as [|[k' v'] kd IH]; simpl; [reflexivity|].
  destruct (String.eqb k k') eqn:E; simpl.
  - apply String.eqb_eq in E as <-.
    destruct (String.eqb_spec k'' k); [contradiction | reflexivity].
  - now rewrite IH.
Qed.

Lemma kd_lookup_app (k : string) (kd l : KeywordDict) :
  kd_lookup k (kd ++ l)%list =
  match kd_lookup k kd with Some v => Some v | None => kd_lookup k l end.
Proof.
  induction kd as [|[k' v'] kd IH]; simpl; [reflexivity|].
  destruct (String.eqb k k'); [reflexivity | exact IH].
Qed.

Lemma add_word_keys (c : string) (kd : KeywordDict) (w : string) :
  map fst (add_word c kd w) = map fst kd.
Proof.
  unfold add_word. destruct (kd_lookup c kd); [|reflexivity].
  destruct (existsb _ _); [reflexivity | apply kd_set_keys].
Qed.

Lemma add_word_lookup_eq (c : string) (kd : KeywordDict) (w : string) (ws : list string) :
  kd_lookup c kd = Some ws ->
  kd_lookup c (add_word c kd w) =
  Some (if existsb (String.eqb w) ws then ws else (ws ++ [w])%list).
Proof.
  intros H. unfold add_word. rewrite H.
  destruct (existsb _ _); [exact H|]. eapply kd_lookup_set_eq; eauto.
Qed.

Lemma add_word_lookup_ne (c k : string) (kd : KeywordDict) (w : string) :
  k <> c -> kd_lookup k (add_word c kd w) = kd_lookup k kd.
Proof.
  intros Hne. unfold add_word. destruct (kd_lookup c kd); [|reflexivity].
  destruct (existsb _ _); [reflexivity|]. now apply kd_lookup_set_ne.
Qed.

Lemma fold_add_word_keys (c : string) (words : list string) (kd : KeywordDict) :
  map fst (fold_left (add_word c) words kd) = map fst kd.
Proof.
  revert kd; induction words as [|w words IH]; intros kd; simpl; [reflexivity|].
  now rewrite IH, add_word_keys.
Qed.

Lemma fold_add_word_lookup_eq (c : string) (words : list string) (kd : KeywordDict) (ws : list string) :
  kd_lookup c kd = Some ws ->
  kd_lookup c (fold_left (add_word c) words kd) = Some (add_words ws words).
Proof.
  revert kd ws; induction words as [|w words IH]; intros kd ws H; simpl; [exact H|].
  apply IH. now apply add_word_lookup_eq.
Qed.

Lemma fold_add_word_lookup_ne (c k : string) (words : list string) (kd : KeywordDict) :
  k <> c -> kd_lookup k (fold_left (add_word c) words kd) = kd_lookup k kd.
Proof.
  intros Hne. revert kd; induction words as [|w words IH]; intros kd; simpl; [reflexivity|].
  now rewrite IH, add_word_lookup_ne.
Qed.

(** [add_words] only appends. *)
Lemma add_words_prefix (ws words : list string) :
  exists ext, add_words ws words = (ws ++ ext)%list.
Proof.
  revert ws; induction words as [|w words IH]; intros ws; simpl.
  - exists []. now rewrite app_nil_r.
  - destruct (existsb _ ws).
    + apply IH.
    + destruct (IH (ws ++ [w])%list) as [ext Hext]. rewrite Hext.
      exists (w :: ext). now rewrite <- app_assoc.
Qed.

(** ** Learning preserves and extends the dictionary *)

Lemma learn_correction_keys (kd : KeywordDict) (nm : NameMap) (o n name : string) :
  exists extra, map fst (fst (learn_correction kd nm o n name)) = (map fst kd ++ extra)%list.
Proof.
  unfold learn_correction. destruct (_ && _); simpl.
  - rewrite fold_add_word_keys. destruct (kd_mem n kd).
    + exists []. now rewrite app_nil_r.
    + exists [n]. now rewrite map_app.
  - exists []. now rewrite app_nil_r.
Qed.

Lemma learn_correction_grows (kd : KeywordDict) (nm : NameMap) (o n name k : string) (ws : list string) :
  kd_lookup k kd = Some ws ->
  exists ext, kd_lookup k (fst (learn_correction kd nm o n name)) = Some (ws ++ ext)%list.
Proof.
  intros H. unfold learn_correction. destruct (_ && _); simpl.
  - set (kd1 := if kd_mem n kd then kd else (kd ++ [(n, [])])%list).
    assert (H1 : kd_lookup k kd1 = Some ws).
    { unfold kd1. destruct (kd_mem n kd); [exact H|]. now rewrite kd_lookup_app, H. }
    destruct (String.eqb_spec k n) as [-> | Hne].
    + rewrite (fold_add_word_lookup_eq _ _ _ ws H1).
      destruct (add_words_prefix ws (Py.split (Py.lower name))) as [ext ->]. eauto.
    + rewrite fold_add_word_lookup_ne by exact Hne. exists []. now rewrite app_nil_r.
  - exists []. now rewrite app_nil_r.
Qed.

Lemma learn_all_cons (kd : KeywordDict) (nm : NameMap) (c : correction) (cs : list correction) :
  learn_all kd nm (c :: cs) =
  learn_all (fst (learn_correction kd nm (c_old c) (c_new c) (c_name c)))
            (snd (learn_correction kd nm (c_old c) (c_new c) (c_name c))) cs.
Proof.
  unfold learn_all. simpl. now destruct (learn_correction _ _ _ _ _).
Qed.

Lemma learn_all_keys (kd : KeywordDict) (nm : NameMap) (cs : list correction) :
  exists extra, map fst (fst (learn_all kd nm cs)) = (map fst kd ++ extra)%list.
Proof.
  revert kd nm; induction cs as [|c cs IH]; intros kd nm.
  - exists []. simpl. now rewrite app_nil_r.
  - rewrite learn_all_cons.
    destruct (IH (fst (learn_correction kd nm (c_old c) (c_new c) (c_name c)))
                 (snd (learn_correction kd nm (c_old c) (c_new c) (c_name c)))) as [e1 ->].
    destruct (learn_correction_keys kd nm (c_old c) (c_new c) (c_name c)) as [e0 ->].
    exists (e0 ++ e1)%list. now rewrite app_assoc.
Qed.

(* ================================================================== *)
(** ** C1: exact-match precedence *)

(** C1: if the normalised name of row [i] is a key of the name map, the
    category written for row [i] is the mapped one, whatever the keyword
    dictionary holds. *)
Theorem categorize_name_map_precedence (df : DataFrame) (kd : KeywordDict) (nm : NameMap)
    (i : nat) (r : row) (c : string) :
  df !! i = Some r ->
  nm !! normalize (Name r) = Some c ->
  Category <$> categorize_transactions df kd nm !! i = Some (Some c).
Proof.
  intros Hr Hc. rewrite categorize_transactions_lookup, Hr. simpl.
  unfold categorize_name. now rewrite Hc.
Qed.

(** ** C2: first keyword match in dictionary order *)

(** C2: when the normalised name is not in the name map, the category is
    the first entry of the dictionary (in its order) with a keyword that
    is a substring of the lower-cased name, and "Other" when there is none;
    and every dictionary reached from [default_keywords] by learning lists
    the default categories first, in their order. *)
Theorem categorize_first_keyword_match (kd : KeywordDict) (nm : NameMap) (name c : string) :
  nm !! normalize name = None ->
  (categorize_name kd nm name = c <->
     (exists pre kws rest, kd = (pre ++ (c, kws) :: rest)%list /\
        Forall (no_hit (normalize name)) pre /\ keyword_hit (normalize name) kws)
     \/ (c = "Other" /\ Forall (no_hit (normalize name)) kd))
  /\ (forall (nm0 : NameMap) (cs : list correction),
        exists extra, map fst (fst (learn_all default_keywords nm0 cs))
                      = (map fst default_keywords ++ extra)%list).
Proof.
  intros Hnm. split; [|intros; apply learn_all_keys].
  unfold categorize_name. rewrite Hnm.
  destruct (scan_keywords kd (normalize name)) as [c'|] eqn:E.
  - pose proof E as E'. apply scan_keywords_some in E'.
    split.
    + intros <-. now left.
    + intros [Hs | [-> Hnone]].
      * apply scan_keywords_some in Hs. congruence.
      * apply scan_keywords_none in Hnone. congruence.
  - pose proof E as E'. apply scan_keywords_none in E'. split.
    + intros <-. now right.
    + intros [Hs | [-> _]]; [|reflexivity].
      apply scan_keywords_some in Hs. congruence.
Qed.

(** ** C10: the category column depends only on the name column *)

(** C10: two batches with the same names, row by row, get the same
    categories, whatever their dates, amounts and directions. *)
Theorem categorize_depends_only_on_names (df1 df2 : DataFrame) (kd : KeywordDict) (nm : NameMap) :
  map Name df1 = map Name df2 ->
  map Category (categorize_transactions df1 kd nm) = map Category (categorize_transactions df2 kd nm).
Proof.
  intros H. rewrite !categorize_transactions_map, !map_map. simpl.
  rewrite <- (map_map Name (fun n => Some (categorize_name kd nm n)) df1).
  rewrite <- (map_map Name (fun n => Some (categorize_name kd nm n)) df2).
  now rewrite H.
Qed.

(** ** C5: what [categorize_transactions] changes *)

(** C5 (as stated, refuted): the batch passed in is not left unchanged,
    its Category column is written. *)
Lemma categorize_mutates_batch :
  let e := mkEnv [mkRow (mkDate 2023 7 4) "Zomato Online" "Debit" 45000 None] default_keywords ∅ in
  env_df (fst (categorize_step e)) <> env_df e.
Proof. simpl. discriminate. Qed.

Lemma categorize_transactions_idem (df : DataFrame) (kd : KeywordDict) (nm : NameMap) :
  categorize_transactions (categorize_transactions df kd nm) kd nm = categorize_transactions df kd nm.
Proof.
  rewrite !categorize_transactions_map, map_map. reflexivity.
Qed.

(** C5 (amended): the call reads the keyword dictionary and the name map
    without changing them, returns the batch object itself, changes only
    its Category column, and calling it again on that state changes
    nothing and returns the same batch. *)
Theorem categorize_step_frame (e : env) :
  let '(e', ret) := categorize_step e in
  env_kd e' = env_kd e /\ env_nm e' = env_nm e /\ ret = env_df e' /\
  map row_base (env_df e') = map row_base (env_df e) /\
  categorize_step e' = (e', ret).
Proof.
  destruct e as [df kd nm]. simpl. repeat split.
  - rewrite categorize_transactions_map, map_map. reflexivity.
  - unfold categorize_step. simpl. now rewrite categorize_transactions_idem.
Qed.

(** ** C4: keyword lists only grow *)

(** C4: through any sequence of corrections, the keyword list of every
    category that exists before is a prefix of its list after: keywords
    are appended, never removed or replaced. *)
Theorem learn_keywords_only_grow (kd : KeywordDict) (nm : NameMap) (cs : list correction)
    (k : string) (ws : list string) :
  kd_lookup k kd = Some ws ->
  exists ext, kd_lookup k (fst (learn_all kd nm cs)) = Some (ws ++ ext)%list.
Proof.
  revert kd nm ws; induction cs as [|c cs IH]; intros kd nm ws H.
  - exists []. simpl. now rewrite app_nil_r.
  - rewrite learn_all_cons.
    destruct (learn_correction_grows kd nm (c_old c) (c_new c) (c_name c) k ws H) as [e0 H0].
    destruct (IH _ (snd (learn_correction kd nm (c_old c) (c_new c) (c_name c))) _ H0) as [e1 H1].
    exists (e0 ++ e1)%list. now rewrite H1, app_assoc.
Qed.

(** ** Lower-casing, stripping and splitting *)

Lemma is_space_lower_char (c : ascii) : Py.is_space (Py.lower_char c) = Py.is_space c.
Proof.
  unfold Py.lower_char. set (n := nat_of_ascii c).
  destruct ((65 <=? n) && (n <=? 90))%nat eqn:E; [|reflexivity].
  apply andb_true_iff in E as [E1 E2]. apply Nat.leb_le in E1, E2.
  unfold Py.is_space. rewrite nat_ascii_embedding by lia. fold n.
  destruct (9 <=? n)%nat eqn:A1, (n <=? 13)%nat eqn:A2, (28 <=? n)%nat eqn:A3, (n <=? 32)%nat eqn:A4,
    (9 <=? n + 32)%nat eqn:B1, (n + 32 <=? 13)%nat eqn:B2, (28 <=? n + 32)%nat eqn:B3,
    (n + 32 <=? 32)%nat eqn:B4; simpl; try reflexivity;
  repeat match goal with H : (_ <=? _)%nat = _ |- _ => first [apply Nat.leb_le in H | apply Nat.leb_gt in H] end;
  lia.
Qed.

Lemma lower_empty (s : string) : String.eqb (Py.lower s) EmptyString = String.eqb s EmptyString.
Proof. now destruct s. Qed.

Lemma lstrip_lower (s : string) : Py.lstrip (Py.lower s) = Py.lower (Py.lstrip s).
Proof.
  induction s as [|c t IH]; simpl; [reflexivity|].
  rewrite is_space_lower_char. now destruct (Py.is_space c).
Qed.

Lemma rstrip_lower (s : string) : Py.rstrip (Py.lower s) = Py.lower (Py.rstrip s).
Proof.
  induction s as [|c t IH]; simpl; [reflexivity|].
  rewrite IH, lower_empty, is_space_lower_char.
  now destruct (String.eqb (Py.rstrip t) EmptyString && Py.is_space c).
Qed.

Lemma normalize_trimmed (name : string) : Py.strip name = name -> normalize name = Py.lower name.
Proof.
  intros H. unfold normalize, Py.strip in *. rewrite lstrip_lower, rstrip_lower. now rewrite H.
Qed.

Lemma split_aux_rstrip (cur s : string) : Py.split_aux cur (Py.rstrip s) = Py.split_aux cur s.
Proof.
  revert cur; induction s as [|c t IH]; intros cur; simpl; [reflexivity|].
  destruct (String.eqb (Py.rstrip t) EmptyString) eqn:E; destruct (Py.is_space c) eqn:Sp; simpl;
    try (rewrite Sp; now rewrite ?IH).
  apply String.eqb_eq in E.
  assert (Ht : Py.split_aux EmptyString t = []) by (now rewrite <- IH, E).
  rewrite Ht. reflexivity.
Qed.

Lemma split_aux_lstrip (s : string) : Py.split_aux EmptyString (Py.lstrip s) = Py.split_aux EmptyString s.
Proof.
  induction s as [|c t IH]; simpl; [reflexivity|].
  destruct (Py.is_space c) eqn:Sp; [exact IH|]. simpl. now rewrite Sp.
Qed.

Lemma split_normalize (name : string) : Py.split (normalize name) = Py.split (Py.lower name).
Proof.
  unfold Py.split, normalize, Py.strip. now rewrite split_aux_rstrip, split_aux_lstrip.
Qed.

(** ** Appending the tokens of a name *)

Lemma filter_filter_comm {A} (p q : A -> bool) (l : list A) :
  List.filter p (List.filter q l) = List.filter q (List.filter p l).
Proof.
  induction l as [|x l IH]; simpl; [reflexivity|].
  destruct (q x) eqn:Q, (p x) eqn:P; simpl; rewrite ?Q, ?P, IH; reflexivity.
Qed.

Lemma filter_skip_neq (p : string -> bool) (x : string) (l : list string) :
  p x = false ->
  List.filter p (List.filter (fun y => negb (String.eqb y x)) l) = List.filter p l.
Proof.
  intros Hx. induction l as [|y l IH]; simpl; [reflexivity|].
  destruct (String.eqb_spec y x) as [-> | _]; simpl.
  - now rewrite Hx.
  - destruct (p y); now rewrite IH.
Qed.

Lemma first_seen_filter (p : string -> bool) (l : list string) :
  first_seen (List.filter p l) = List.filter p (first_seen l).
Proof.
  induction l as [|x l IH]; simpl; [reflexivity|].
  destruct (p x) eqn:P; simpl.
  - rewrite IH. f_equal. apply filter_filter_comm.
  - rewrite IH. symmetry. now apply filter_skip_neq.
Qed.

Lemma filter_not_in_snoc (ws : list string) (w : string) (l : list string) :
  List.filter (not_in (ws ++ [w])%list) l
  = List.filter (fun y => negb (String.eqb y w)) (List.filter (not_in ws) l).
Proof.
  induction l as [|x l IH]; simpl; [reflexivity|].
  assert (Hx : not_in (ws ++ [w])%list x = not_in ws x && negb (String.eqb x w)).
  { unfold not_in. rewrite existsb_app. simpl. rewrite orb_false_r.
    now destruct (existsb _ ws). }
  rewrite Hx. destruct (not_in ws x); simpl; [|exact IH].
  destruct (String.eqb x w); simpl; now rewrite IH.
Qed.

Lemma add_words_cons (ws : list string) (w : string) (words : list string) :
  add_words ws (w :: words)
  = add_words (if existsb (String.eqb w) ws then ws else (ws ++ [w])%list) words.
Proof. reflexivity. Qed.

Lemma add_words_spec (ws words : list string) :
  add_words ws words = (ws ++ first_seen (List.filter (not_in ws) words))%list.
Proof.
  revert ws; induction words as [|w words IH]; intros ws.
  - simpl. now rewrite app_nil_r.
  - rewrite add_words_cons.
    change (List.filter (not_in ws) (w :: words)) with
      (if not_in ws w then w :: List.filter (not_in ws) words else List.filter (not_in ws) words).
    replace (not_in ws w) with (negb (existsb (String.eqb w) ws)) by reflexivity.
    destruct (existsb (String.eqb w) ws) eqn:E; cbn [negb].
    + apply IH.
    + rewrite IH, <- app_assoc. cbn [first_seen app]. f_equal. f_equal.
      now rewrite filter_not_in_snoc, first_seen_filter.
Qed.

Lemma existsb_app_l (w : string) (ws ext : list string) :
  existsb (String.eqb w) ws = true -> existsb (String.eqb w) (ws ++ ext)%list = true.
Proof. intros H. now rewrite existsb_app, H. Qed.

Lemma add_words_keeps (ws words : list string) (w : string) :
  existsb (String.eqb w) ws = true -> existsb (String.eqb w) (add_words ws words) = true.
Proof.
  intros H. destruct (add_words_prefix ws words) as [ext ->]. now apply existsb_app_l.
Qed.

Lemma add_words_contains (ws words : list string) (w : string) :
  In w words -> existsb (String.eqb w) (add_words ws words) = true.
Proof.
  revert ws; induction words as [|w' words IH]; intros ws H; simpl; [now destruct H|].
  destruct H as [-> | Hin]; [|now apply IH].
  apply add_words_keeps.
  destruct (existsb (String.eqb w) ws) eqn:E; [exact E|].
  rewrite existsb_app. simpl. now rewrite String.eqb_refl, orb_true_r.
Qed.

Lemma fold_add_word_present (c : string) (words : list string) (kd : KeywordDict) (ws : list string) :
  kd_lookup c kd = Some ws ->
  Forall (fun w => existsb (String.eqb w) ws = true) words ->
  fold_left (add_word c) words kd = kd.
Proof.
  intros Hl Hall. revert kd Hl; induction Hall as [|w words Hw _ IH]; intros kd Hl; simpl; [reflexivity|].
  assert (E : add_word c kd w = kd) by (unfold add_word; now rewrite Hl, Hw).
  rewrite E. now apply IH.
Qed.

(** ** C3: the effects of one correction *)

(** C3 (as stated, refuted): a new category made only of spaces is not
    learned although it is non-empty and differs from the old one; and for
    a name with surrounding spaces the name map gets the lower-cased but
    untrimmed key, so the normalised name stays unmapped. *)
Lemma learn_correction_claim_fails :
  learn_correction default_keywords ∅ "Other" " " "John Doe" = (default_keywords, ∅)
  /\ kd_mem " " default_keywords = false
  /\ snd (learn_correction default_keywords ∅ "Other" "Rent" " John Doe ") !! normalize " John Doe "
     = None.
Proof. split; [|split]; reflexivity. Qed.

(** C3 (amended): for a correction whose new category is not blank and
    differs from the old one, (1) the new category is appended to the
    dictionary when absent, (2) for a name without surrounding spaces the
    name map is updated at the normalised name, (3) the tokens of the
    normalised name missing from the category's list are appended in
    first-seen order and no other category changes; applying the same
    correction again changes nothing. *)
Theorem learn_correction_effects (kd : KeywordDict) (nm : NameMap) (old_cat new_cat name : string) :
  new_cat <> old_cat ->
  Py.strip new_cat <> EmptyString ->
  let '(kd', nm') := learn_correction kd nm old_cat new_cat name in
  let ws0 := default [] (kd_lookup new_cat kd) in
  map fst kd' = (map fst kd ++ (if kd_mem new_cat kd then [] else [new_cat]))%list
  /\ (Py.strip name = name -> nm' = <[normalize name := new_cat]> nm)
  /\ kd_lookup new_cat kd'
     = Some (ws0 ++ first_seen (List.filter (not_in ws0) (Py.split (normalize name))))%list
  /\ (forall k, k <> new_cat -> kd_lookup k kd' = kd_lookup k kd)
  /\ learn_correction kd' nm' old_cat new_cat name = (kd', nm').
Proof.
  intros Hne Hblank.
  assert (Hg : negb (String.eqb new_cat old_cat) && negb (String.eqb (Py.strip new_cat) EmptyString) = true).
  { apply andb_true_iff. split; apply negb_true_iff; apply String.eqb_neq; assumption. }
  unfold learn_correction. rewrite Hg. cbv zeta.
  set (ws0 := default [] (kd_lookup new_cat kd)).
  set (kd1 := if kd_mem new_cat kd then kd else (kd ++ [(new_cat, [])])%list).
  set (words := Py.split (Py.lower name)).
  assert (Hkd1 : kd_lookup new_cat kd1 = Some ws0).
  { unfold kd1, ws0, kd_mem. destruct (kd_lookup new_cat kd) eqn:E; [exact E|].
    rewrite kd_lookup_app, E. simpl. now rewrite String.eqb_refl. }
  assert (Hkeys : map fst kd1 = (map fst kd ++ (if kd_mem new_cat kd then [] else [new_cat]))%list).
  { unfold kd1. destruct (kd_mem new_cat kd); [now rewrite app_nil_r | now rewrite map_app]. }
  assert (Hother : forall k, k <> new_cat -> kd_lookup k kd1 = kd_lookup k kd).
  { intros k Hk. unfold kd1. destruct (kd_mem new_cat kd); [reflexivity|].
    rewrite kd_lookup_app. destruct (kd_lookup k kd); [reflexivity|]. simpl.
    destruct (String.eqb_spec k new_cat); [contradiction | reflexivity]. }
  assert (Hnew : kd_lookup new_cat (fold_left (add_word new_cat) words kd1) = Some (add_words ws0 words))
    by now apply fold_add_word_lookup_eq.
  split; [|split; [|split; [|split]]].
  - now rewrite fold_add_word_keys.
  - intros Hs. now rewrite normalize_trimmed.
  - rewrite Hnew, add_words_spec. unfold words. now rewrite split_normalize.
  - intros k Hk. rewrite fold_add_word_lookup_ne by exact Hk. now apply Hother.
  - assert (Hmem : kd_mem new_cat (fold_left (add_word new_cat) words kd1) = true)
      by (unfold kd_mem; now rewrite Hnew).
    rewrite Hmem. f_equal.
    + eapply fold_add_word_present; [exact Hnew|].
      apply List.Forall_forall. intros w Hw. now apply add_words_contains.
    + apply insert_insert_eq.
Qed.

(** ** The regular-expression matchers *)

Module ReFacts.
Import Re.
Local Open Scope list_scope.

Lemma in_seq (m1 m2 : M) (s r : list ascii) :
  In r (seq m1 m2 s) <-> exists r1, In r1 (m1 s) /\ In r (m2 r1).
Proof. unfold seq. rewrite in_flat_map. firstorder. Qed.

Lemma in_alt (m1 m2 : M) (s r : list ascii) :
  In r (alt m1 m2 s) <-> In r (m1 s) \/ In r (m2 s).
Proof. unfold alt. apply in_app_iff. Qed.

Lemma in_chr (p : ascii -> bool) (s r : list ascii) :
  In r (chr p s) <-> exists c, s = c :: r /\ p c = true.
Proof.
  destruct s as [|c t]; simpl.
  - split; [intros [] | intros [c [H _]]; discriminate].
  - destruct (p c) eqn:P; simpl.
    + split; [intros [<- | []]; eauto | intros [c' [H _]]; injection H as -> ->; now left].
    + split; [intros [] | intros [c' [H Hp]]; injection H as -> ->; congruence].
Qed.

Lemma in_lit (w s r : list ascii) : In r (lit w s) <-> s = w ++ r.
Proof.
  revert s; induction w as [|a w IH]; intros s; simpl.
  - split; [intros [<- | []]; reflexivity | intros ->; now left].
  - destruct s as [|b s]; simpl.
    + split; [intros [] | discriminate].
    + destruct (Ascii.eqb_spec a b) as [-> | Hne].
      * rewrite IH. split; [intros ->; reflexivity | intros H; now injection H].
      * split; [intros [] | intros H; injection H as -> _; contradiction].
Qed.

Lemma in_rep_chr (n : nat) (p : ascii -> bool) (s r : list ascii) :
  In r (rep n (chr p) s) <->
  exists m, s = m ++ r /\ length m = n /\ Forall (fun c => p c = true) m.
Proof.
  revert s; induction n as [|n IH]; intros s; simpl.
  - split.
    + intros [<- | []]. exists []. repeat split; auto.
    + intros [[|c m] [-> [Hl _]]]; [now left | discriminate].
  - rewrite in_seq. split.
    + intros [r1 [Hc Hr]]. apply in_chr in Hc as [c [-> Hp]].
      apply IH in Hr as [m [-> [Hl Hf]]]. exists (c :: m).
      split; [reflexivity|]. split; [simpl; congruence | now constructor].
    + intros [[|c m] [-> [Hl Hf]]]; [discriminate|].
      inversion Hf; subst. exists (m ++ r). split.
      * apply in_chr. eauto.
      * apply IH. exists m. simpl in Hl. auto.
Qed.

Lemma in_star (p : ascii -> bool) (s r : list ascii) :
  In r (star p s) <-> exists m, s = m ++ r /\ Forall (fun c => p c = true) m.
Proof.
  induction s as [|c t IH]; simpl.
  - split.
    + intros [<- | []]. exists []. repeat split; auto.
    + intros [m [Hm _]]. symmetry in Hm. apply app_eq_nil in Hm as [-> ->]. now left.
  - rewrite in_app_iff. simpl. split.
    + intros [Hs | [<- | []]].
      * destruct (p c) eqn:P; [|destruct Hs].
        apply IH in Hs as [m [-> Hf]]. exists (c :: m).
        split; [reflexivity | now constructor].
      * exists []. repeat split; auto.
    + intros [[|c' m] [Hm Hf]].
      * right. now left.
      * injection Hm as -> ->. inversion Hf; subst.
        left. rewrite H1. apply IH. eauto.
Qed.

Lemma matches_in (m : M) (s : list ascii) : matches m s = true <-> exists r, In r (m s).
Proof.
  unfold matches. destruct (m s) as [|r rs]; simpl.
  - split; [discriminate | intros [r []]].
  - split; [intros _; exists r; now left | reflexivity].
Qed.

End ReFacts.

(** ** C6: the line classifier *)

Lemma transaction_pattern_spec (l : list ascii) :
  Re.matches transaction_pattern l = true <->
  exists mon dd yyyy mid kw d rest,
    l = (mon ++ L " " ++ dd ++ L ", " ++ yyyy ++ L " " ++ mid ++ L " " ++ kw ++ L " INR " ++ d :: rest)%list
    /\ length mon = 3 /\ Forall (fun c => Re.is_alpha c = true) mon
    /\ length dd = 2 /\ Forall (fun c => Re.is_digit c = true) dd
    /\ length yyyy = 4 /\ Forall (fun c => Re.is_digit c = true) yyyy
    /\ Forall (fun c => Re.not_newline c = true) mid
    /\ (kw = L "Debit" \/ kw = L "Credit")
    /\ Re.is_digit d = true.
Proof.
  rewrite ReFacts.matches_in. unfold transaction_pattern. split.
  - intros [r H].
    repeat match goal with
    | H : In _ (Re.seq _ _ _) |- _ => apply ReFacts.in_seq in H as [? [? ?]]
    | H : In _ (Re.rep _ (Re.chr _) _) |- _ => apply ReFacts.in_rep_chr in H as [? [? [? ?]]]
    | H : In _ (Re.lit _ _) |- _ => apply ReFacts.in_lit in H
    | H : In _ (Re.star _ _) |- _ => apply ReFacts.in_star in H as [? [? ?]]
    | H : In _ (Re.chr _ _) |- _ => apply ReFacts.in_chr in H as [? [? ?]]
    | H : In _ (Re.alt _ _ _) |- _ => apply ReFacts.in_alt in H as [H | H]
    end; subst;
    do 7 eexists; (split; [reflexivity|]); repeat split; eauto.
  - intros (mon & dd & yyyy & mid & kw & d & rest & -> & Hm1 & Hm2 & Hd1 & Hd2 & Hy1 & Hy2 & Hmid & Hkw & Hdig).
    exists rest.
    repeat (apply ReFacts.in_seq; eexists; split;
      [ first
        [ apply ReFacts.in_rep_chr; eexists; split; [reflexivity | split; eassumption]
        | apply ReFacts.in_lit; reflexivity
        | apply ReFacts.in_star; eexists; split; [reflexivity | eassumption]
        | apply ReFacts.in_alt; destruct Hkw as [-> | ->];
          [left | right]; apply ReFacts.in_lit; reflexivity ]
      | ]).
    apply ReFacts.in_chr. exists d. auto.
Qed.

(** C6 (as stated, refuted): any three letters are accepted in place of
    the month, and a line whose date is followed directly by "Debit" is
    rejected (the pattern needs a space, any text, and another space). *)
Lemma is_transaction_line_claim_fails :
  is_transaction_line "Xyz 04, 2023 Paid to A Debit INR 5" = true
  /\ index_of (Py.lower "Xyz") month_abbrs 1 = None
  /\ is_transaction_line "Jul 04, 2023 Debit INR 450.00" = false.
Proof. split; [|split]; reflexivity. Qed.

(** C6 (amended): the classifier (a pure function) accepts a line exactly
    when it starts with three ASCII letters, a space, two digits, ", ",
    four digits and a space, followed by any newline-free text, a space,
    "Debit" or "Credit", " INR " and a digit. *)
Theorem is_transaction_line_spec (line : string) :
  is_transaction_line line = true <->
  exists mon dd yyyy mid kw d rest,
    L line = (mon ++ L " " ++ dd ++ L ", " ++ yyyy ++ L " " ++ mid ++ L " " ++ kw ++ L " INR " ++ d :: rest)%list
    /\ length mon = 3 /\ Forall (fun c => Re.is_alpha c = true) mon
    /\ length dd = 2 /\ Forall (fun c => Re.is_digit c = true) dd
    /\ length yyyy = 4 /\ Forall (fun c => Re.is_digit c = true) yyyy
    /\ Forall (fun c => Re.not_newline c = true) mid
    /\ (kw = L "Debit" \/ kw = L "Credit")
    /\ Re.is_digit d = true.
Proof. apply transaction_pattern_spec. Qed.

(** ** The field extractor *)

Lemma after_first_some (sep s : string) :
  Py.contains sep s = true -> exists t, after_first sep s = Some t.
Proof.
  induction s as [|c s IH]; simpl; intros H;
    destruct (Py.startswith sep _) eqn:E; simpl in *; eauto; discriminate.
Qed.

Lemma parse_name_some (line : string) :
  exists name,
    (if Py.contains "Paid to" line then
       option_map (fun s => Py.strip (before_first "Debit" s)) (split_1 "Paid to" line)
     else if Py.contains "Received from" line then
       option_map (fun s => Py.strip (before_first "Credit" s)) (split_1 "Received from" line)
     else Some "Unknown") = Some name.
Proof.
  unfold split_1.
  destruct (Py.contains "Paid to" line) eqn:P.
  - destruct (after_first_some _ _ P) as [t ->]. simpl. eauto.
  - destruct (Py.contains "Received from" line) eqn:R; [|eauto].
    destruct (after_first_some _ _ R) as [t ->]. simpl. eauto.
Qed.

Lemma firstn_app_length {A} (x y : list A) :
  firstn (length (x ++ y) - length y) (x ++ y) = x.
Proof.
  rewrite length_app, Nat.add_sub, firstn_app, Nat.sub_diag, firstn_all. simpl.
  apply app_nil_r.
Qed.

Lemma capture_in (pre grp : Re.M) (s g : list ascii) :
  Re.capture pre grp s = Some g ->
  exists r1 r2, In r1 (pre s) /\ In r2 (grp r1) /\ g = firstn (length r1 - length r2) r1.
Proof.
  unfold Re.capture. intros H.
  assert (Hin : In g (flat_map (fun r1 => map (fun r2 => firstn (length r1 - length r2) r1) (grp r1)) (pre s))).
  { destruct (flat_map _ _) as [|x xs]; simpl in H; [discriminate|]. injection H as ->. now left. }
  apply in_flat_map in Hin as [r1 [H1 Hin]]. apply in_map_iff in Hin as [r2 [<- H2]]. eauto.
Qed.

Lemma search_capture_some (pre grp : Re.M) (s g : list ascii) :
  Re.search_capture pre grp s = Some g -> exists t, Re.capture pre grp t = Some g.
Proof.
  induction s as [|c s IH]; simpl; destruct (Re.capture pre grp _) eqn:E; intros H;
    try (injection H as ->; eauto); try discriminate; auto.
Qed.

(** What the amount group captures: [[\d,]+\.\d{2}]. *)
Lemma amount_capture_shape (line : string) (g : list ascii) :
  amount_capture line = Some g ->
  exists m d1 d2, g = (m ++ ["."%char; d1; d2])%list /\ m <> []
    /\ Forall (fun c => is_digit_or_comma c = true) m
    /\ Re.is_digit d1 = true /\ Re.is_digit d2 = true.
Proof.
  intros H. apply search_capture_some in H as [t H].
  apply capture_in in H as [r1 [r2 [_ [H2 ->]]]].
  unfold amount_group, Re.plus in H2.
  repeat match goal with
  | H : In _ (Re.seq _ _ _) |- _ => apply ReFacts.in_seq in H as [? [? ?]]
  | H : In _ (Re.rep _ (Re.chr _) _) |- _ => apply ReFacts.in_rep_chr in H as [? [? [? ?]]]
  | H : In _ (Re.lit _ _) |- _ => apply ReFacts.in_lit in H
  | H : In _ (Re.star _ _) |- _ => apply ReFacts.in_star in H as [? [? ?]]
  | H : In _ (Re.chr _ _) |- _ => apply ReFacts.in_chr in H as [? [? ?]]
  end; subst.
  match goal with H : length ?dd = 2 |- _ =>
    destruct dd as [|d1 [|d2 [|? ?]]]; simpl in H; try discriminate end.
  match goal with H : Forall _ [_; _] |- _ => inversion H as [|? ? Hd1 Hd2']; subst;
    inversion Hd2' as [|? ? Hd2 _]; subst end.
  match goal with |- context [take _ (?x :: ?m ++ L "." ++ [d1; d2] ++ ?r)] =>
    exists (x :: m), d1, d2;
    replace (x :: m ++ L "." ++ [d1; d2] ++ r)%list
      with ((x :: m ++ ["."%char; d1; d2]) ++ r)%list by (simpl; now rewrite <- app_assoc)
  end.
  rewrite firstn_app_length. repeat split; auto; try discriminate; constructor; auto.
Qed.

Lemma float_cents_capture (line : string) (g : list ascii) :
  amount_capture line = Some g ->
  exists v, float_cents (List.filter (fun c => negb (Ascii.eqb c ",")) g) = Some v.
Proof.
  intros H. apply amount_capture_shape in H as (m & d1 & d2 & -> & _ & Hm & Hd1 & Hd2).
  rewrite List.filter_app. simpl.
  assert (N1 : Ascii.eqb d1 "," = false) by (destruct d1 as [[] [] [] [] [] [] [] []]; easy).
  assert (N2 : Ascii.eqb d2 "," = false) by (destruct d2 as [[] [] [] [] [] [] [] []]; easy).
  rewrite N1, N2. simpl. unfold float_cents. rewrite rev_app_distr. simpl.
  rewrite Hd1, Hd2. simpl.
  assert (Hf : forallb Re.is_digit (rev (List.filter (fun c => negb (Ascii.eqb c ",")) m)) = true).
  { apply forallb_forall. intros c Hc. apply in_rev, List.filter_In in Hc as [Hc Hnc].
    rewrite List.Forall_forall in Hm. specialize (Hm c Hc).
    unfold is_digit_or_comma in Hm. destruct (Ascii.eqb c ","); [discriminate|].
    now rewrite orb_false_r in Hm. }
  rewrite Hf. eauto.
Qed.

(** ** C7: a missing amount does not drop the line *)

(** C7 (as stated, refuted): a line the classifier accepts, with no amount
    match, is dropped all the same when its date does not parse. *)
Lemma parse_line_claim_fails :
  is_transaction_line "Xyz 04, 2023 Paid to A Debit INR 5" = true
  /\ amount_capture "Xyz 04, 2023 Paid to A Debit INR 5" = None
  /\ parse_lines ["Xyz 04, 2023 Paid to A Debit INR 5"] = [].
Proof. split; [|split]; reflexivity. Qed.

(** C7 (amended): an accepted line whose date does not parse is dropped;
    one whose date parses is kept.  Its amount is 0 when there is no
    [INR <digits and commas>.<2 digits>] match; otherwise [float] of the
    first match with its commas removed always succeeds, and an amount
    below 10^15 paise (at most 15 significant digits, where the float
    determines the amount) is that amount to the paisa. *)
Theorem parse_line_keeps_record (line : string) :
  is_transaction_line line = true ->
  ((date_capture line ≫= strptime_b_d_Y) = None -> parse_lines [line] = [])
  /\ forall dt, (date_capture line ≫= strptime_b_d_Y) = Some dt ->
     exists r, parse_lines [line] = [r] /\ Date r = dt
     /\ (amount_capture line = None -> Amount r = 0%Z)
     /\ (forall g, amount_capture line = Some g ->
           exists c, float_cents (List.filter (fun c => negb (Ascii.eqb c ",")) g) = Some c
           /\ ((c < 10 ^ 15)%Z -> Amount r = c)).
Proof.
  intros Hl. unfold parse_lines. simpl. rewrite Hl. split.
  { intros Hd. simpl. destruct (parse_line line) as [r|] eqn:Ep; [exfalso|reflexivity].
    unfold parse_line in Ep. destruct (date_capture line) as [ds|]; simpl in Hd, Ep;
      [rewrite Hd in Ep|]; discriminate. }
  intros dt Hd.
  assert (Hp : exists r, parse_line line = Some r /\ Date r = dt
    /\ (amount_capture line = None -> Amount r = 0%Z)
    /\ (forall g, amount_capture line = Some g ->
          exists c, float_cents (List.filter (fun c => negb (Ascii.eqb c ",")) g) = Some c
          /\ ((c < 10 ^ 15)%Z -> Amount r = c))).
  { unfold parse_line. destruct (date_capture line) as [ds|]; simpl in Hd; [|discriminate].
    simpl. rewrite Hd. simpl.
    destruct (parse_name_some line) as [nm Hn]. rewrite Hn. simpl.
    destruct (amount_capture line) as [g|] eqn:Ea.
    - destruct (float_cents_capture line g Ea) as [v Hv]. rewrite Hv. simpl.
      eexists. split; [reflexivity|]. split; [reflexivity|]. split; [discriminate|].
      intros g' Hg'. injection Hg' as <-. exists v. split; [exact Hv | reflexivity].
    - simpl. eexists. split; [reflexivity|]. split; [reflexivity|]. split; [reflexivity|].
      discriminate. }
  destruct Hp as [r [Hr Hrest]]. exists r. simpl. rewrite Hr. auto.
Qed.

(** ** Printing fixed-width numbers *)

Lemma L_app (s1 s2 : string) : L (s1 ++ s2)%string = (L s1 ++ L s2)%list.
Proof. induction s1 as [|c s1 IH]; simpl; [reflexivity|]. unfold L in *. now rewrite IH. Qed.

Lemma L_length (s : string) : length (L s) = String.length s.
Proof. induction s as [|c s IH]; simpl; [reflexivity|]. unfold L in *. now rewrite IH. Qed.

Lemma dec_value_aux_snoc (acc : Z) (s : string) (c : ascii) :
  dec_value_aux acc (s ++ String c EmptyString)%string = (dec_value_aux acc s * 10 + digit_val c)%Z.
Proof.
  revert acc; induction s as [|c' s IH]; intros acc; simpl; [reflexivity|]. apply IH.
Qed.

Lemma digit_char_val (k : Z) : (0 <= k < 10)%Z ->
  digit_val (digit_char k) = k /\ Re.is_digit (digit_char k) = true.
Proof.
  intros Hk. unfold digit_char, digit_val, Re.is_digit.
  rewrite nat_ascii_embedding by lia. split.
  - rewrite Nat.add_comm, Nat.add_sub. lia.
  - apply andb_true_iff. split; apply Nat.leb_le; lia.
Qed.

Lemma fixed_digits_S (w : nat) (z : Z) :
  fixed_digits (S w) z = (fixed_digits w (z / 10) ++ String (digit_char (z mod 10)) EmptyString)%string.
Proof. reflexivity. Qed.

Lemma fixed_digits_shape (w : nat) (z : Z) :
  String.length (fixed_digits w z) = w /\ forallb Re.is_digit (L (fixed_digits w z)) = true.
Proof.
  revert z; induction w as [|w IH]; intros z; [split; reflexivity|].
  rewrite fixed_digits_S.
  destruct (IH (z / 10)%Z) as [Hl Hd].
  assert (Hm : (0 <= z mod 10 < 10)%Z) by (apply Z.mod_pos_bound; lia).
  destruct (digit_char_val _ Hm) as [_ Hc].
  rewrite L_app, forallb_app, <- !L_length, L_app, length_app. rewrite <- L_length in Hl.
  rewrite Hd, Hl. cbn [L list_ascii_of_string forallb length]. rewrite Hc. split; [lia | reflexivity].
Qed.

Lemma fixed_digits_value (w : nat) (z : Z) :
  (0 <= z < 10 ^ Z.of_nat w)%Z -> dec_value (fixed_digits w z) = z.
Proof.
  revert z; induction w as [|w IH]; intros z Hz.
  - cbn in Hz. unfold dec_value. cbn. lia.
  - rewrite fixed_digits_S. unfold dec_value in *. rewrite dec_value_aux_snoc, IH.
    + assert (Hm : (0 <= z mod 10 < 10)%Z) by (apply Z.mod_pos_bound; lia).
      rewrite (proj1 (digit_char_val _ Hm)). pose proof (Z.div_mod z 10). lia.
    + rewrite Nat2Z.inj_succ, Z.pow_succ_r in Hz by lia.
      split; [apply Z.div_pos; lia | apply Z.div_lt_upper_bound; lia].
Qed.

(** ** Dates produced by the extractor *)

Lemma digit_val_bound (c : ascii) : Re.is_digit c = true -> (0 <= digit_val c <= 9)%Z.
Proof.
  unfold Re.is_digit, digit_val. intros H.
  apply andb_true_iff in H as [H1 H2]. apply Nat.leb_le in H1, H2. lia.
Qed.

Lemma index_of_range (x : string) (l : list string) (i j : Z) :
  index_of x l i = Some j -> (i <= j < i + Z.of_nat (length l))%Z.
Proof.
  revert i; induction l as [|y l IH]; intros i H; simpl in H; [discriminate|].
  destruct (String.eqb x y).
  - injection H as <-. simpl length. lia.
  - apply IH in H. simpl length. lia.
Qed.

Lemma days_in_month_le (y m : Z) : (days_in_month y m <= 31)%Z.
Proof.
  unfold days_in_month. destruct (Z.eqb m 2); [destruct (is_leap y); lia|].
  destruct (existsb _ _); lia.
Qed.

Lemma strptime_date_ok (s : list ascii) (dt : date) :
  strptime_b_d_Y s = Some dt -> date_ok dt.
Proof.
  intros H. unfold strptime_b_d_Y in H.
  do 12 (destruct s as [|? s]; [discriminate|]). destruct s; [|discriminate].
  match type of H with (if ?g then _ else _) = _ => destruct g eqn:G; [|discriminate] end.
  destruct (index_of _ month_abbrs 1) as [mo|] eqn:I; [|discriminate].
  match type of H with (if ?g then _ else _) = _ => destruct g eqn:B; [|discriminate] end.
  injection H as <-.
  apply index_of_range in I. simpl in I.
  rewrite !andb_true_iff in G. destruct G as [[[[_ _] _] _] Gy].
  simpl in Gy. rewrite !andb_true_iff in Gy. destruct Gy as (Y1 & Y2 & Y3 & Y4 & _).
  apply digit_val_bound in Y1, Y2, Y3, Y4.
  rewrite !andb_true_iff, !Z.leb_le in B. destruct B as [[B1 B2] B3].
  match type of B3 with (_ <= days_in_month ?y ?m)%Z => pose proof (days_in_month_le y m) end.
  unfold date_ok. simpl. lia.
Qed.

Lemma strptime_in_month (s : list ascii) (dt : date) :
  strptime_b_d_Y s = Some dt -> (day dt <= days_in_month (year dt) (month dt))%Z.
Proof.
  intros H. unfold strptime_b_d_Y in H.
  do 12 (destruct s as [|? s]; [discriminate|]). destruct s; [|discriminate].
  match type of H with (if ?g then _ else _) = _ => destruct g; [|discriminate] end.
  destruct (index_of _ month_abbrs 1) as [mo|]; [|discriminate].
  match type of H with (if ?g then _ else _) = _ => destruct g eqn:B; [|discriminate] end.
  injection H as <-. simpl.
  rewrite !andb_true_iff, !Z.leb_le in B. destruct B as [_ B3]. exact B3.
Qed.

Lemma parse_line_in_month (line : string) (r : row) :
  parse_line line = Some r -> (day (Date r) <= days_in_month (year (Date r)) (month (Date r)))%Z.
Proof.
  unfold parse_line. intros H.
  destruct (date_capture line) as [ds|]; [|discriminate]. simpl in H.
  destruct (strptime_b_d_Y ds) as [dt|] eqn:Hs; [|discriminate]. simpl in H.
  destruct (parse_name_some line) as [nm Hn]. rewrite Hn in H. simpl in H.
  destruct (match amount_capture line with Some g => _ | None => _ end) as [v|]; [|discriminate].
  simpl in H. injection H as <-. simpl. eapply strptime_in_month; eauto.
Qed.

Lemma parse_line_date_ok (line : string) (r : row) :
  parse_line line = Some r -> date_ok (Date r).
Proof.
  unfold parse_line. intros H.
  destruct (date_capture line) as [ds|]; [|discriminate]. simpl in H.
  destruct (strptime_b_d_Y ds) as [dt|] eqn:Hs; [|discriminate]. simpl in H.
  destruct (parse_name_some line) as [nm Hn]. rewrite Hn in H. simpl in H.
  destruct (match amount_capture line with Some g => _ | None => _ end) as [v|]; [|discriminate].
  simpl in H. injection H as <-. simpl. eapply strptime_date_ok; eauto.
Qed.

Lemma parse_lines_date_ok (lines : list string) (r : row) :
  In r (parse_lines lines) -> date_ok (Date r).
Proof.
  unfold parse_lines. intros H. apply list_elem_of_In, list_elem_of_omap in H as [l [_ Hl]].
  eapply parse_line_date_ok; eauto.
Qed.

(** ** Rows through [main] *)

Lemma apply_edits_base (df : DataFrame) (edits : list (option string)) :
  map row_base (apply_edits df edits) = map row_base df.
Proof.
  revert edits; induction df as [|r df IH]; intros [|e es]; simpl; try reflexivity.
  now rewrite IH.
Qed.

Lemma categorize_base (df : DataFrame) (kd : KeywordDict) (nm : NameMap) :
  map row_base (categorize_transactions df kd nm) = map row_base df.
Proof. rewrite categorize_transactions_map, map_map. reflexivity. Qed.

Lemma main_run_base (df : DataFrame) (kd : KeywordDict) (nm : NameMap) (edits : list (option string)) :
  map row_base (run_categorized (main_run df kd nm edits)) = map row_base (List.filter is_debit df)
  /\ map row_base (run_shown (main_run df kd nm edits)) = map row_base (List.filter is_debit df).
Proof.
  unfold main_run.
  destruct (learn_loop kd nm false _) as [[kd' nm'] changed]. simpl.
  split; [apply categorize_base|].
  destruct changed; rewrite ?categorize_base, ?apply_edits_base, ?categorize_base; reflexivity.
Qed.

Lemma in_base (l1 l2 : DataFrame) (r : row) :
  map row_base l1 = map row_base l2 -> In r l1 -> exists r0, In r0 l2 /\ row_base r = row_base r0.
Proof.
  intros H Hr. assert (Hin : In (row_base r) (map row_base l2)) by (rewrite <- H; now apply in_map).
  apply in_map_iff in Hin as [r0 [Heq Hr0]]. eauto.
Qed.

Lemma filter_idem {A} (f : A -> bool) (l : list A) :
  List.filter f (List.filter f l) = List.filter f l.
Proof.
  induction l as [|x l IH]; simpl; [reflexivity|].
  destruct (f x) eqn:E; simpl; rewrite ?E, IH; reflexivity.
Qed.

Lemma base_debit (l df : DataFrame) :
  map row_base l = map row_base (List.filter is_debit df) ->
  Forall (fun r => Debit_Credit r = "Debit") l.
Proof.
  intros H. apply List.Forall_forall. intros r Hr.
  destruct (in_base _ _ r H Hr) as [r0 [Hr0 Hb]].
  apply List.filter_In in Hr0 as [_ Hd]. unfold is_debit in Hd. apply String.eqb_eq in Hd.
  unfold row_base in Hb. injection Hb as _ _ Hdc _. congruence.
Qed.

(** ** C8: the exported table *)

(** C8 (as stated, refuted): the amount 450.00 is exported as "450.0",
    with one fractional digit. *)
Lemma export_claim_fails :
  run_export (main_run (parse_lines ["Jul 04, 2023 Paid to Zomato Online Debit INR 450.00"])
                default_keywords ∅ [])
  = [["Date"; "Name"; "Debit/Credit"; "Amount"; "Category"];
     ["2023-07-04"; "Zomato Online"; "Debit"; "450.0"; "Food"]].
Proof. reflexivity. Qed.

(** C8 (amended): for a batch read from a PDF whose amounts are below
    10^15 paise (INR 10,000,000,000,000), the export has the header Date,
    Name, Debit/Credit, Amount, Category in that order, and each row gives
    the date as YYYY-MM-DD (the digits of the date), then the name, the
    direction, the amount as Python prints a float (integer part, a point,
    and one or two fractional digits, one when the amount is a multiple of
    0.10), and the category. *)
Theorem export_layout (lines : list string) (kd : KeywordDict) (nm : NameMap)
    (edits : list (option string)) :
  Forall (fun r => (Amount r < 10 ^ 15)%Z) (parse_lines lines) ->
  let res := main_run (parse_lines lines) kd nm edits in
  run_export res = ["Date"; "Name"; "Debit/Credit"; "Amount"; "Category"] :: map export_fields (run_shown res)
  /\ forall r, In r (run_shown res) ->
     exists y4 m2 d2 ip frac,
       export_fields r = [(y4 ++ "-" ++ m2 ++ "-" ++ d2)%string; Name r; Debit_Credit r;
                          (ip ++ "." ++ frac)%string; default EmptyString (Category r)]
       /\ String.length y4 = 4 /\ String.length m2 = 2 /\ String.length d2 = 2
       /\ digits_only y4 /\ digits_only m2 /\ digits_only d2
       /\ dec_value y4 = year (Date r) /\ dec_value m2 = month (Date r) /\ dec_value d2 = day (Date r)
       /\ ip = z_str (Amount r / 100)
       /\ digits_only frac /\ (String.length frac = 1 \/ String.length frac = 2)
       /\ ((Amount r mod 10 = 0)%Z -> String.length frac = 1).
Proof.
  intros _ res. split; [unfold res, main_run; now destruct (learn_loop _ _ _ _) as [[? ?] ?]|].
  intros r Hr.
  destruct (main_run_base (parse_lines lines) kd nm edits) as [_ Hs].
  destruct (in_base _ _ r Hs Hr) as [r0 [Hr0 Hb]].
  apply List.filter_In in Hr0 as [Hr0 _]. apply parse_lines_date_ok in Hr0.
  unfold row_base in Hb. injection Hb as Hdate _ _ _. rewrite <- Hdate in Hr0.
  destruct Hr0 as (Hy & Hm & Hd).
  set (frac := if Z.eqb ((Amount r mod 100) mod 10) 0
               then fixed_digits 1 ((Amount r mod 100) / 10) else fixed_digits 2 (Amount r mod 100)).
  exists (fixed_digits 4 (year (Date r))), (fixed_digits 2 (month (Date r))),
    (fixed_digits 2 (day (Date r))), (z_str (Amount r / 100)), frac.
  destruct (fixed_digits_shape 4 (year (Date r))) as [Ly Dy].
  destruct (fixed_digits_shape 2 (month (Date r))) as [Lm Dm].
  destruct (fixed_digits_shape 2 (day (Date r))) as [Ld Dd].
  split; [reflexivity|].
  do 6 (split; [assumption|]).
  split; [apply fixed_digits_value; simpl; lia|].
  split; [apply fixed_digits_value; simpl; lia|].
  split; [apply fixed_digits_value; simpl; lia|].
  split; [reflexivity|].
  unfold frac. destruct (Z.eqb_spec ((Amount r mod 100) mod 10) 0) as [E|E].
  - destruct (fixed_digits_shape 1 ((Amount r mod 100) / 10)) as [L1 D1]. auto.
  - destruct (fixed_digits_shape 2 (Amount r mod 100)) as [L2 D2].
    split; [exact D2|]. split; [auto|]. intros H.
    exfalso. apply E. rewrite Z.mod_mod_divide; [exact H|]. now exists 10%Z.
Qed.

(** ** C9: only debits go through *)

(** C9: every row that is categorised, shown, summarised and exported is
    a Debit row, the shown rows are exactly the Debit rows of the loaded
    batch, and the whole run (learning included) is the run on the Debit
    rows alone: Credit rows have no effect. *)
Theorem main_run_debits_only (df : DataFrame) (kd : KeywordDict) (nm : NameMap)
    (edits : list (option string)) :
  let res := main_run df kd nm edits in
  Forall (fun r => Debit_Credit r = "Debit") (run_categorized res)
  /\ Forall (fun r => Debit_Credit r = "Debit") (run_shown res)
  /\ map row_base (run_shown res) = map row_base (List.filter is_debit df)
  /\ run_summary res = summarize (run_shown res)
  /\ run_export res = export_table (run_shown res)
  /\ res = main_run (List.filter is_debit df) kd nm edits.
Proof.
  intros res. destruct (main_run_base df kd nm edits) as [Hc Hs].
  split; [now apply base_debit in Hc|].
  split; [now apply base_debit in Hs|].
  split; [exact Hs|].
  split; [unfold res, main_run; now destruct (learn_loop _ _ _ _) as [[? ?] ?]|].
  split; [unfold res, main_run; now destruct (learn_loop _ _ _ _) as [[? ?] ?]|].
  unfold res, main_run. now rewrite filter_idem.
Qed.

(** * Further properties of the program: store, PDF parsing, categorisation,
    summary, learning loop, chatbot and file extension *)

Lemma sapp_assoc (x y z : string) : ((x ++ y) ++ z = x ++ y ++ z)%string.
Proof. induction x as [|c x IH]; [reflexivity|]. exact (f_equal (String c) IH). Qed.

Lemma sapp_nil_r (x : string) : (x ++ EmptyString = x)%string.
Proof. induction x as [|c x IH]; [reflexivity|]. exact (f_equal (String c) IH). Qed.

(** ** The store *)

Lemma insert_rows_union (rows : list (string * string)) (m : gmap string string) :
  NoDup rows.*1 -> insert_rows rows m = list_to_map rows ∪ m.
Proof.
  revert m; induction rows as [|[k v] rows IH]; intros m Hnd; simpl.
  - by rewrite map_empty_union.
  - simpl in Hnd. apply NoDup_cons in Hnd as [Hk Hnd]. unfold insert_rows in *. simpl.
    rewrite IH by done.
    rewrite <- insert_union_r by (apply not_elem_of_list_to_map_1; done).
    by rewrite insert_union_l.
Qed.

Lemma load_table (m : gmap string string) : load_name_category_map (Some m) = Some m.
Proof.
  unfold load_name_category_map. simpl. f_equal.
  rewrite insert_rows_union by apply NoDup_fst_map_to_list.
  by rewrite list_to_map_to_list, map_union_empty.
Qed.

Lemma save_table (nm : NameMap) (m : gmap string string) :
  save_name_category_map nm (Some m) = Some (nm ∪ m).
Proof.
  unfold save_name_category_map. simpl. f_equal.
  rewrite insert_rows_union by apply NoDup_fst_map_to_list.
  by rewrite list_to_map_to_list.
Qed.

(** Saving a name map into the table (created by [init_db] if missing) and loading it back gives that map merged over the rows the table already had. *)
Theorem save_then_load (nm : NameMap) (t : Table) :
  load_name_category_map (save_name_category_map nm (init_db t)) = Some (nm ∪ default ∅ t).
Proof. destruct t as [m|]; cbn [init_db default]; rewrite save_table, load_table; reflexivity. Qed.

Lemma learn_correction_dom (kd : KeywordDict) (nm : NameMap) (o n name k : string) :
  is_Some (nm !! k) -> is_Some (snd (learn_correction kd nm o n name) !! k).
Proof.
  intros H. unfold learn_correction. destruct (_ && _); simpl; [|exact H].
  destruct (decide (Py.lower name = k)) as [<-|Hne].
  - rewrite lookup_insert_eq. eauto.
  - rewrite lookup_insert_ne by done. exact H.
Qed.

Lemma learn_loop_dom (kd : KeywordDict) (nm : NameMap) (ch : bool) (rows : list (row * row)) (k : string) :
  is_Some (nm !! k) -> is_Some (snd (fst (learn_loop kd nm ch rows)) !! k).
Proof.
  revert kd nm ch; induction rows as [|[r_old r_new] rows IH]; intros kd nm ch H; simpl; [exact H|].
  pose proof (learn_correction_dom kd nm (cat_of r_old) (cat_of r_new) (Name r_new) k H) as H'.
  destruct (learn_correction _ _ _ _ _) as [kd' nm']. apply IH. exact H'.
Qed.

Lemma learn_loop_unchanged (kd : KeywordDict) (nm : NameMap) (ch : bool) (rows : list (row * row))
    (kd' : KeywordDict) (nm' : NameMap) :
  learn_loop kd nm ch rows = (kd', nm', false) -> ch = false /\ kd' = kd /\ nm' = nm.
Proof.
  revert kd nm ch; induction rows as [|[r_old r_new] rows IH]; intros kd nm ch H; simpl in H.
  - now injection H as -> -> ->.
  - unfold learn_correction in H. fold (is_correction (cat_of r_old) (cat_of r_new)) in H.
    destruct (is_correction (cat_of r_old) (cat_of r_new)) eqn:E.
    + apply IH in H as [H _]. now rewrite orb_true_r in H.
    + rewrite orb_false_r in H. now apply IH in H.
Qed.

Lemma union_dom_l (nm m : gmap string string) :
  (forall k, is_Some (m !! k) -> is_Some (nm !! k)) -> nm ∪ m = nm.
Proof.
  intros H. apply map_eq. intros k. rewrite lookup_union.
  destruct (nm !! k) eqn:E1, (m !! k) eqn:E2; simpl; try reflexivity.
  destruct (H k) as [v Hv]; [eauto|]. congruence.
Qed.

(** Over one run of [main], starting from the map loaded from the table, the table afterwards (saved only when a correction was learnt) loads back exactly the session's name map. *)
Theorem session_store_matches (t : Table) (kd : KeywordDict) (df : DataFrame)
    (edits : list (option string)) :
  exists nm0, load_name_category_map (init_db t) = Some nm0 /\
  let res := main_run df kd nm0 edits in
  load_name_category_map
    (if run_changed res then save_name_category_map (run_nm res) (init_db t) else init_db t)
  = Some (run_nm res).
Proof.
  set (m := default ∅ t).
  assert (Ht : init_db t = Some m) by (now destruct t).
  exists m. rewrite Ht, load_table. split; [reflexivity|].
  unfold main_run.
  destruct (learn_loop kd m false _) as [[kd' nm'] changed] eqn:E. cbn [run_changed run_nm].
  destruct changed.
  - rewrite save_table, load_table. f_equal. apply union_dom_l. intros k Hk.
    pose proof (learn_loop_dom kd m false (zip (categorize_transactions (List.filter is_debit df) kd m)
       (apply_edits (categorize_transactions (List.filter is_debit df) kd m) edits)) k Hk) as H.
    now rewrite E in H.
  - apply learn_loop_unchanged in E as (_ & _ & ->). apply load_table.
Qed.

(** ** Pages *)

Lemma split_char_aux_noseq (sep : ascii) (cur x s : string) :
  ~ In sep (L x) ->
  split_char_aux sep cur (x ++ s) = split_char_aux sep (cur ++ x) s.
Proof.
  revert cur; induction x as [|c x IH]; intros cur Hx.
  - now rewrite sapp_nil_r.
  - change (split_char_aux sep cur (String c (x ++ s)) = split_char_aux sep (cur ++ String c x) s).
    simpl. destruct (Ascii.eqb_spec c sep) as [->|Hne].
    + exfalso. apply Hx. now left.
    + rewrite IH by (intros H; apply Hx; now right).
      now rewrite sapp_assoc.
Qed.

Lemma split_char_aux_concat (sep : ascii) (lines : list string) (cur : string) :
  Forall (fun l => ~ In sep (L l)) lines ->
  split_char_aux sep cur (String.concat (String sep EmptyString) lines)
  = match lines with [] => [cur] | x :: r => (cur ++ x)%string :: r end.
Proof.
  revert cur; induction lines as [|x [|y ys] IH]; intros cur Hf.
  - reflexivity.
  - apply Forall_cons in Hf as [Hx _]. simpl.
    rewrite <- (sapp_nil_r x) at 1. rewrite split_char_aux_noseq by exact Hx. reflexivity.
  - apply Forall_cons in Hf as [Hx Hf].
    change (String.concat (String sep EmptyString) (x :: y :: ys))
      with (x ++ String sep (String.concat (String sep EmptyString) (y :: ys)))%string.
    rewrite split_char_aux_noseq by exact Hx. simpl. rewrite Ascii.eqb_refl.
    rewrite IH by exact Hf. reflexivity.
Qed.

Lemma page_transactions_some (t : string) :
  page_transactions (Some t) = List.filter is_transaction_line (split_char newline t).
Proof.
  unfold page_transactions. destruct (String.eqb_spec t EmptyString) as [->|_]; reflexivity.
Qed.

(** When page texts are made of lines joined by newlines, [parse_phonepe_pdf] parses exactly the concatenation of all pages' lines; pages without text contribute nothing. *)
Theorem parse_phonepe_pdf_lines (pages : list (option (list string))) :
  Forall (fun ls => Forall (fun l => ~ In newline (L l)) ls) (map (default []) pages) ->
  parse_phonepe_pdf (map (option_map (String.concat (String newline EmptyString))) pages)
  = parse_lines (List.concat (map (default []) pages)).
Proof.
  intros Hf. unfold parse_phonepe_pdf, parse_lines. f_equal.
  induction pages as [|p pages IH]; [reflexivity|].
  simpl in Hf. apply Forall_cons in Hf as [Hp Hf].
  simpl. rewrite List.filter_app, IH by exact Hf. f_equal.
  destruct p as [ls|]; [|reflexivity]. cbn [option_map default].
  rewrite page_transactions_some. unfold split_char.
  rewrite split_char_aux_concat by exact Hp.
  destruct ls as [|x r]; reflexivity.
Qed.

(** ** Rows *)

Lemma rstrip_idem (s : string) : Py.rstrip (Py.rstrip s) = Py.rstrip s.
Proof.
  induction s as [|c t IH]; [reflexivity|]. simpl.
  destruct (String.eqb (Py.rstrip t) EmptyString && Py.is_space c) eqn:E; [reflexivity|].
  simpl. rewrite IH, E. reflexivity.
Qed.

Lemma lstrip_shape (s : string) :
  Py.lstrip s = EmptyString \/ exists c t, Py.lstrip s = String c t /\ Py.is_space c = false.
Proof.
  induction s as [|c t IH]; simpl; [now left|].
  destruct (Py.is_space c) eqn:E; [exact IH|]. right. now exists c, t.
Qed.

Lemma strip_idem (s : string) : Py.strip (Py.strip s) = Py.strip s.
Proof.
  unfold Py.strip. destruct (lstrip_shape s) as [-> | (c & t & -> & Hc)]; [reflexivity|].
  simpl. rewrite Hc, andb_false_r. simpl. rewrite Hc. simpl.
  rewrite rstrip_idem, Hc, andb_false_r. reflexivity.
Qed.

Lemma float_cents_nonneg (s : list ascii) (v : Z) : float_cents s = Some v -> (0 <= v)%Z.
Proof.
  unfold float_cents. intros H.
  destruct (rev s) as [|f2 [|f1 [|dot rint]]]; try discriminate.
  destruct (_ && _); [|discriminate]. injection H as <-.
  assert (Hd : forall c, (0 <= digit_val c)%Z) by (intros c; unfold digit_val; lia).
  assert (Hr : (0 <= fold_right (fun c acc => acc * 10 + digit_val c) 0 rint)%Z).
  { induction rint as [|c r IH]; cbn [fold_right]; [lia|]. specialize (Hd c). lia. }
  pose proof (Hd f1). pose proof (Hd f2). lia.
Qed.

Lemma parse_line_shape (line : string) (r : row) :
  parse_line line = Some r ->
  (Debit_Credit r = "Debit" \/ Debit_Credit r = "Credit")
  /\ (0 <= Amount r)%Z /\ Py.strip (Name r) = Name r /\ Category r = None.
Proof.
  unfold parse_line. intros H.
  destruct (date_capture line) as [ds|]; [|discriminate]. simpl in H.
  destruct (strptime_b_d_Y ds) as [dt|]; [|discriminate]. simpl in H.
  remember (if Py.contains "Paid to" line then
              option_map (fun s => Py.strip (before_first "Debit" s)) (split_1 "Paid to" line)
            else if Py.contains "Received from" line then
              option_map (fun s => Py.strip (before_first "Credit" s)) (split_1 "Received from" line)
            else Some "Unknown") as ne eqn:En.
  destruct ne as [name|]; [|discriminate]. simpl in H. symmetry in En.
  remember (match amount_capture line with
            | Some g => float_cents (List.filter (fun c => negb (Ascii.eqb c ",")) g)
            | None => Some 0%Z
            end) as ae eqn:Ea.
  destruct ae as [amt|]; [|discriminate]. simpl in H. injection H as <-. simpl. symmetry in Ea.
  split; [destruct (Py.contains "Debit" line); auto|].
  split.
  { destruct (amount_capture line); [eapply float_cents_nonneg; exact Ea|].
    injection Ea as <-. lia. }
  split; [|reflexivity].
  destruct (Py.contains "Paid to" line).
  - destruct (split_1 "Paid to" line); simpl in En; [|discriminate]. injection En as <-. apply strip_idem.
  - destruct (Py.contains "Received from" line).
    + destruct (split_1 "Received from" line); simpl in En; [|discriminate]. injection En as <-. apply strip_idem.
    + injection En as <-. reflexivity.
Qed.

(** Every row [parse_phonepe_pdf] produces has a valid calendar date (year
    1 to 9999, month 1 to 12, a day that exists in that month), type Debit or Credit, a non-negative amount, a stripped name and no category yet. *)
Theorem parse_phonepe_pdf_rows (pages : list (option string)) (r : row) :
  In r (parse_phonepe_pdf pages) ->
  date_ok (Date r) /\ (day (Date r) <= days_in_month (year (Date r)) (month (Date r)))%Z
  /\ (Debit_Credit r = "Debit" \/ Debit_Credit r = "Credit")
  /\ (0 <= Amount r)%Z /\ Py.strip (Name r) = Name r /\ Category r = None.
Proof.
  unfold parse_phonepe_pdf. intros H.
  apply list_elem_of_In, list_elem_of_omap in H as [l [_ Hl]].
  split; [eapply parse_line_date_ok; exact Hl|].
  split; [eapply parse_line_in_month; exact Hl|]. now apply parse_line_shape in Hl.
Qed.

(** ** Name extraction *)

Lemma startswith_app_long (p s t : string) :
  (String.length p <= String.length s)%nat ->
  Py.startswith p (s ++ t) = Py.startswith p s.
Proof.
  revert s; induction p as [|a p IH]; intros s Hl; [reflexivity|].
  destruct s as [|b s]; simpl in Hl; [lia|].
  change (Ascii.eqb a b && Py.startswith p (s ++ t) = Ascii.eqb a b && Py.startswith p s).
  rewrite IH by lia. reflexivity.
Qed.

Lemma startswith_app_self (p t : string) : Py.startswith p (p ++ t) = true.
Proof. apply startswith_spec. now exists t. Qed.

Lemma str_drop_app (p t : string) : str_drop (String.length p) (p ++ t) = t.
Proof. induction p as [|a p IH]; [reflexivity|]. exact IH. Qed.

Lemma contains_tail (n : string) (c : ascii) (t : string) :
  Py.contains n (String c t) = false -> Py.contains n t = false.
Proof. simpl. intros H. apply orb_false_iff in H as [_ H]. exact H. Qed.

Lemma sapp_length (x y : string) : String.length (x ++ y) = (String.length x + String.length y)%nat.
Proof. induction x as [|c x IH]; [reflexivity|]. simpl. now rewrite IH. Qed.

Lemma after_first_eq (sep s : string) :
  after_first sep s =
  if Py.startswith sep s then Some (str_drop (String.length sep) s)
  else match s with EmptyString => None | String _ t => after_first sep t end.
Proof. destruct s; reflexivity. Qed.

Lemma before_first_eq (sep s : string) :
  before_first sep s =
  if Py.startswith sep s then EmptyString
  else match s with EmptyString => EmptyString | String c t => String c (before_first sep t) end.
Proof. destruct s; reflexivity. Qed.

(** No [sep] starts inside [pre] when [pre] followed by all of [sep] but
    its last character does not contain [sep]; then [sep] does not start
    at the head of [pre ++ sep ++ rest] unless [pre] is empty. *)
Lemma startswith_marked (sep0 : string) (z : ascii) (c : ascii) (pre rest : string) :
  Py.contains (sep0 ++ String z EmptyString) (String c pre ++ sep0) = false ->
  Py.startswith (sep0 ++ String z EmptyString) (String c (pre ++ (sep0 ++ String z EmptyString) ++ rest))
  = false.
Proof.
  intros H.
  change (String c (pre ++ (sep0 ++ String z EmptyString) ++ rest))
    with (String c pre ++ (sep0 ++ String z EmptyString) ++ rest)%string.
  rewrite (sapp_assoc sep0), <- (sapp_assoc (String c pre) sep0).
  rewrite startswith_app_long.
  - simpl in H. apply orb_false_iff in H as [H _]. exact H.
  - rewrite !sapp_length. simpl. lia.
Qed.

Lemma after_first_marked (sep0 : string) (z : ascii) (pre rest : string) :
  Py.contains (sep0 ++ String z EmptyString) (pre ++ sep0) = false ->
  after_first (sep0 ++ String z EmptyString) (pre ++ (sep0 ++ String z EmptyString) ++ rest)
  = Some rest.
Proof.
  induction pre as [|c pre IH]; intros H.
  - change (after_first (sep0 ++ String z EmptyString) ((sep0 ++ String z EmptyString) ++ rest)
            = Some rest).
    rewrite after_first_eq, startswith_app_self, str_drop_app. reflexivity.
  - change (after_first (sep0 ++ String z EmptyString)
              (String c (pre ++ (sep0 ++ String z EmptyString) ++ rest)) = Some rest).
    rewrite after_first_eq, startswith_marked by exact H.
    apply IH. eapply contains_tail. exact H.
Qed.

Lemma before_first_marked (sep0 : string) (z : ascii) (mid rest : string) :
  Py.contains (sep0 ++ String z EmptyString) (mid ++ sep0) = false ->
  before_first (sep0 ++ String z EmptyString) (mid ++ (sep0 ++ String z EmptyString) ++ rest)
  = mid.
Proof.
  induction mid as [|c mid IH]; intros H.
  - change (before_first (sep0 ++ String z EmptyString) ((sep0 ++ String z EmptyString) ++ rest)
            = EmptyString).
    rewrite before_first_eq, startswith_app_self. reflexivity.
  - change (before_first (sep0 ++ String z EmptyString)
              (String c (mid ++ (sep0 ++ String z EmptyString) ++ rest)) = String c mid).
    rewrite before_first_eq, startswith_marked by exact H.
    f_equal. apply IH. eapply contains_tail. exact H.
Qed.

Lemma before_first_absent (sep s : string) :
  Py.contains sep s = false -> before_first sep s = s.
Proof.
  induction s as [|c s IH]; intros H; rewrite before_first_eq.
  - destruct (Py.startswith sep EmptyString); reflexivity.
  - simpl in H. apply orb_false_iff in H as [H1 H2]. rewrite H1. f_equal. now apply IH.
Qed.

Lemma contains_middle (n x y : string) : Py.contains n (x ++ n ++ y) = true.
Proof. apply contains_spec. eauto. Qed.

(** On a line holding a single 'Paid to' marker followed by a single 'Debit', the parsed name is the stripped text between the two markers and the type is Debit. *)
Theorem parse_line_paid_to (pre mid post : string) (r : row) :
  Py.contains "Paid to" (pre ++ "Paid t") = false ->
  Py.contains "Paid to" (mid ++ "Debit" ++ post) = false ->
  Py.contains "Debit" (mid ++ "Debi") = false ->
  parse_line (pre ++ "Paid to" ++ mid ++ "Debit" ++ post) = Some r ->
  Name r = Py.strip mid /\ Debit_Credit r = "Debit".
Proof.
  intros Hpre Hpost Hmid H. unfold parse_line in H.
  destruct (date_capture _) as [ds|]; [|discriminate]. simpl in H.
  destruct (strptime_b_d_Y ds) as [dt|]; [|discriminate]. simpl in H.
  rewrite contains_middle in H.
  assert (Hs : split_1 "Paid to" (pre ++ "Paid to" ++ mid ++ "Debit" ++ post) = Some (mid ++ "Debit" ++ post)%string).
  { unfold split_1.
    assert (Ha : after_first "Paid to" (pre ++ "Paid to" ++ mid ++ "Debit" ++ post)
                 = Some (mid ++ "Debit" ++ post)%string)
      by exact (after_first_marked "Paid t" "o"%char pre (mid ++ "Debit" ++ post) Hpre).
    rewrite Ha. cbn [option_map]. f_equal. now apply before_first_absent. }
  rewrite Hs in H. cbn [option_map] in H.
  assert (Hn : before_first "Debit" (mid ++ "Debit" ++ post) = mid)
    by exact (before_first_marked "Debi" "t"%char mid post Hmid).
  rewrite Hn in H. simpl in H.
  assert (Hd : Py.contains "Debit" (pre ++ "Paid to" ++ mid ++ "Debit" ++ post) = true).
  { rewrite <- (sapp_assoc "Paid to"), <- (sapp_assoc pre). apply contains_middle. }
  rewrite Hd in H.
  destruct (amount_capture _) as [g|]; [destruct (float_cents _)|]; simpl in H;
    try discriminate; injection H as <-; split; reflexivity.
Qed.

(** On a line without 'Paid to' or 'Debit' that holds a single 'Received from' marker followed by a single 'Credit', the parsed name is the stripped text between them and the type is Credit. *)
Theorem parse_line_received_from (pre mid post : string) (r : row) :
  Py.contains "Paid to" (pre ++ "Received from" ++ mid ++ "Credit" ++ post) = false ->
  Py.contains "Debit" (pre ++ "Received from" ++ mid ++ "Credit" ++ post) = false ->
  Py.contains "Received from" (pre ++ "Received fro") = false ->
  Py.contains "Received from" (mid ++ "Credit" ++ post) = false ->
  Py.contains "Credit" (mid ++ "Credi") = false ->
  parse_line (pre ++ "Received from" ++ mid ++ "Credit" ++ post) = Some r ->
  Name r = Py.strip mid /\ Debit_Credit r = "Credit".
Proof.
  intros Hp Hd Hpre Hpost Hmid H. unfold parse_line in H.
  destruct (date_capture _) as [ds|]; [|discriminate]. simpl in H.
  destruct (strptime_b_d_Y ds) as [dt|]; [|discriminate]. simpl in H.
  rewrite Hp, contains_middle in H.
  assert (Hs : split_1 "Received from" (pre ++ "Received from" ++ mid ++ "Credit" ++ post) = Some (mid ++ "Credit" ++ post)%string).
  { unfold split_1.
    assert (Ha : after_first "Received from" (pre ++ "Received from" ++ mid ++ "Credit" ++ post)
                 = Some (mid ++ "Credit" ++ post)%string)
      by exact (after_first_marked "Received fro" "m"%char pre (mid ++ "Credit" ++ post) Hpre).
    rewrite Ha. cbn [option_map]. f_equal. now apply before_first_absent. }
  rewrite Hs in H. cbn [option_map] in H.
  assert (Hn : before_first "Credit" (mid ++ "Credit" ++ post) = mid)
    by exact (before_first_marked "Credi" "t"%char mid post Hmid).
  rewrite Hn in H. simpl in H. rewrite Hd in H.
  destruct (amount_capture _) as [g|]; [destruct (float_cents _)|]; simpl in H;
    try discriminate; injection H as <-; split; reflexivity.
Qed.

(** ** Categorisation *)

Lemma lower_app (x y : string) : Py.lower (x ++ y) = (Py.lower x ++ Py.lower y)%string.
Proof. induction x as [|c x IH]; [reflexivity|]. exact (f_equal (String (Py.lower_char c)) IH). Qed.

Lemma spaces_lower (w : string) :
  forallb Py.is_space (L w) = true -> forallb Py.is_space (L (Py.lower w)) = true.
Proof.
  induction w as [|c w IH]; [reflexivity|]. intros H.
  change (Py.is_space c && forallb Py.is_space (L w) = true) in H.
  change (Py.is_space (Py.lower_char c) && forallb Py.is_space (L (Py.lower w)) = true).
  apply andb_true_iff in H as [H1 H2]. rewrite is_space_lower_char, H1. simpl. now apply IH.
Qed.

Lemma lstrip_spaces_app (w y : string) :
  forallb Py.is_space (L w) = true -> Py.lstrip (w ++ y) = Py.lstrip y.
Proof.
  induction w as [|c w IH]; [reflexivity|]. intros H.
  change (Py.is_space c && forallb Py.is_space (L w) = true) in H.
  apply andb_true_iff in H as [H1 H2].
  change (Py.lstrip (String c (w ++ y)) = Py.lstrip y). simpl. rewrite H1. now apply IH.
Qed.

Lemma rstrip_spaces (w : string) :
  forallb Py.is_space (L w) = true -> Py.rstrip w = EmptyString.
Proof.
  induction w as [|c w IH]; [reflexivity|]. intros H.
  change (Py.is_space c && forallb Py.is_space (L w) = true) in H.
  apply andb_true_iff in H as [H1 H2]. simpl. rewrite IH by exact H2. simpl. now rewrite H1.
Qed.

Lemma rstrip_app_spaces (x w : string) :
  forallb Py.is_space (L w) = true -> Py.rstrip (x ++ w) = Py.rstrip x.
Proof.
  intros H. induction x as [|c x IH].
  - now apply rstrip_spaces.
  - change (Py.rstrip (String c (x ++ w)) = Py.rstrip (String c x)). simpl. now rewrite IH.
Qed.

Lemma lstrip_app (x y : string) :
  Py.lstrip (x ++ y) = if String.eqb (Py.lstrip x) EmptyString then Py.lstrip y else (Py.lstrip x ++ y)%string.
Proof.
  induction x as [|c x IH]; [reflexivity|].
  change (Py.lstrip (String c (x ++ y)) = if String.eqb (Py.lstrip (String c x)) EmptyString
          then Py.lstrip y else (Py.lstrip (String c x) ++ y)%string).
  simpl. destruct (Py.is_space c); [exact IH|]. reflexivity.
Qed.

Lemma strip_pad (ws1 x ws2 : string) :
  forallb Py.is_space (L ws1) = true -> forallb Py.is_space (L ws2) = true ->
  Py.strip (ws1 ++ x ++ ws2) = Py.strip x.
Proof.
  intros H1 H2. unfold Py.strip. rewrite lstrip_spaces_app by exact H1.
  rewrite lstrip_app. destruct (String.eqb_spec (Py.lstrip x) EmptyString) as [E|E].
  - rewrite E. assert (Hl : Py.lstrip ws2 = EmptyString).
    { clear - H2. induction ws2 as [|c w IH]; [reflexivity|].
      change (Py.is_space c && forallb Py.is_space (L w) = true) in H2.
      apply andb_true_iff in H2 as [H2 H3]. simpl. rewrite H2. now apply IH. }
    now rewrite Hl.
  - now apply rstrip_app_spaces.
Qed.

(** Categorisation of a name ignores letter case and surrounding whitespace. *)
Theorem categorize_name_case_space (kd : KeywordDict) (nm : NameMap) (n1 n2 ws1 ws2 : string) :
  Py.lower n1 = Py.lower n2 ->
  forallb Py.is_space (L ws1) = true -> forallb Py.is_space (L ws2) = true ->
  categorize_name kd nm (ws1 ++ n1 ++ ws2) = categorize_name kd nm n2.
Proof.
  intros Hl H1 H2. unfold categorize_name.
  replace (normalize (ws1 ++ n1 ++ ws2)) with (normalize n2); [reflexivity|].
  unfold normalize. rewrite !lower_app, Hl. symmetry. apply strip_pad; now apply spaces_lower.
Qed.

Lemma scan_keywords_key (kd : KeywordDict) (nl c : string) :
  scan_keywords kd nl = Some c -> In c (map fst kd).
Proof.
  induction kd as [|[cat kws] kd IH]; simpl; [discriminate|].
  destruct (existsb _ _); [intros H; injection H as ->; now left|]. intros H. right. now apply IH.
Qed.

(** Every row [categorize_transactions] outputs carries a category, which is a value of the name map, a key of the keyword dictionary, or Other. *)
Theorem categorize_transactions_known (df : DataFrame) (kd : KeywordDict) (nm : NameMap) :
  Forall (fun r => exists c, Category r = Some c /\
            ((exists k, nm !! k = Some c) \/ In c (map fst kd) \/ c = "Other"))
         (categorize_transactions df kd nm).
Proof.
  rewrite categorize_transactions_map. apply List.Forall_forall. intros r Hr.
  apply in_map_iff in Hr as [r0 [<- _]]. simpl. eexists; split; [reflexivity|].
  unfold categorize_name. destruct (nm !! normalize (Name r0)) as [c|] eqn:E; [left; eauto|].
  destruct (scan_keywords kd _) as [c|] eqn:Es; [right; left; eapply scan_keywords_key; exact Es|].
  now right; right.
Qed.

(** ** Summary *)







(** ** Main run *)

(** When a run of [main] learns no correction, the keyword dictionary and the name map are unchanged and the table shown is the categorised table with the edits applied. *)
Theorem main_run_no_correction (df : DataFrame) (kd : KeywordDict) (nm : NameMap)
    (edits : list (option string)) :
  run_changed (main_run df kd nm edits) = false ->
  run_kd (main_run df kd nm edits) = kd /\ run_nm (main_run df kd nm edits) = nm
  /\ run_shown (main_run df kd nm edits) = apply_edits (run_categorized (main_run df kd nm edits)) edits.
Proof.
  unfold main_run. destruct (learn_loop _ _ _ _) as [[kd' nm'] changed] eqn:E.
  cbn [run_changed run_kd run_nm run_shown run_categorized]. intros ->.
  apply learn_loop_unchanged in E as (_ & -> & ->). auto.
Qed.

Lemma learn_loop_app (kd : KeywordDict) (nm : NameMap) (ch : bool) (l1 l2 : list (row * row)) :
  learn_loop kd nm ch (l1 ++ l2) =
  let '(kd1, nm1, ch1) := learn_loop kd nm ch l1 in learn_loop kd1 nm1 ch1 l2.
Proof.
  revert kd nm ch; induction l1 as [|[a b] l1 IH]; intros kd nm ch; [reflexivity|].
  simpl. destruct (learn_correction _ _ _ _ _) as [kd1 nm1]. apply IH.
Qed.

Lemma learn_loop_changed (kd : KeywordDict) (nm : NameMap) (rows : list (row * row)) :
  snd (learn_loop kd nm true rows) = true.
Proof.
  revert kd nm; induction rows as [|[a b] rows IH]; intros kd nm; [reflexivity|].
  simpl. destruct (learn_correction _ _ _ _ _) as [kd1 nm1]. apply IH.
Qed.

Lemma learn_loop_keep (kd : KeywordDict) (nm : NameMap) (ch : bool) (rows : list (row * row))
    (k c : string) :
  nm !! k = Some c ->
  Forall (fun ab => Py.lower (Name (snd ab)) = k ->
                    is_correction (cat_of (fst ab)) (cat_of (snd ab)) = true -> cat_of (snd ab) = c) rows ->
  snd (fst (learn_loop kd nm ch rows)) !! k = Some c.
Proof.
  revert kd nm ch; induction rows as [|[a b] rows IH]; intros kd nm ch Hk Hf; [exact Hk|].
  apply Forall_cons in Hf as [Hab Hf]. simpl in Hab. simpl.
  unfold learn_correction. fold (is_correction (cat_of a) (cat_of b)).
  destruct (is_correction (cat_of a) (cat_of b)) eqn:Ec; apply IH; try exact Hf; try exact Hk.
  destruct (decide (Py.lower (Name b) = k)) as [<-|Hne].
  - rewrite lookup_insert_eq. f_equal. now apply Hab.
  - rewrite lookup_insert_ne by exact Hne. exact Hk.
Qed.

Lemma apply_edits_lookup (df : DataFrame) (edits : list (option string)) (j : nat) (r : row) :
  df !! j = Some r ->
  exists r', apply_edits df edits !! j = Some r' /\ Name r' = Name r
    /\ cat_of r' = match edits !! j with Some (Some c) => c | _ => cat_of r end.
Proof.
  revert edits j; induction df as [|r0 df IH]; intros edits j H; [discriminate|].
  destruct edits as [|e es].
  - exists r. split; [exact H|]. split; [reflexivity|]. now rewrite lookup_nil.
  - destruct j as [|j]; simpl in H |- *.
    + injection H as <-. eexists; split; [reflexivity|]. split; [reflexivity|].
      destruct e; reflexivity.
    + now apply IH.
Qed.

Lemma lookup_zip (l1 l2 : DataFrame) (j : nat) (a b : row) :
  l1 !! j = Some a -> l2 !! j = Some b -> zip l1 l2 !! j = Some (a, b).
Proof. intros H1 H2. now apply lookup_zip_Some. Qed.

Lemma lookup_zip_inv (l1 l2 : DataFrame) (j : nat) (a b : row) :
  zip l1 l2 !! j = Some (a, b) -> l1 !! j = Some a /\ l2 !! j = Some b.
Proof. apply lookup_zip_Some. Qed.

Lemma is_correction_refl (c : string) : is_correction c c = false.
Proof. unfold is_correction. now rewrite String.eqb_refl. Qed.

(** When the user corrects row [i] to a category [c] different from its current one (and no later row with the same name is corrected differently), the run reports a change and, after recategorisation, row [i] shows category [c]. *)
Theorem main_run_correction_sticks (df : DataFrame) (kd : KeywordDict) (nm : NameMap)
    (edits : list (option string)) (i : nat) (r : row) (c : string) :
  run_categorized (main_run df kd nm edits) !! i = Some r ->
  edits !! i = Some (Some c) ->
  is_correction (cat_of r) c = true ->
  Py.strip (Name r) = Name r ->
  (forall j r' c', (i < j)%nat -> run_categorized (main_run df kd nm edits) !! j = Some r' ->
     edits !! j = Some (Some c') -> Py.lower (Name r') = Py.lower (Name r) ->
     is_correction (cat_of r') c' = true -> c' = c) ->
  run_changed (main_run df kd nm edits) = true
  /\ Category <$> run_shown (main_run df kd nm edits) !! i = Some (Some c).
Proof.
  unfold main_run.
  set (df1 := categorize_transactions (List.filter is_debit df) kd nm).
  set (edited := apply_edits df1 edits).
  destruct (learn_loop kd nm false (zip df1 edited)) as [[kd' nm'] ch] eqn:E.
  cbn [run_categorized run_changed run_shown].
  intros Hr He Hc Hstrip Hlater.
  destruct (apply_edits_lookup df1 edits i r Hr) as (re & Hre & Hname & Hcat).
  rewrite He in Hcat. fold edited in Hre.
  set (rows := zip df1 edited).
  assert (Hi : rows !! i = Some (r, re)) by (now apply lookup_zip).
  assert (Hsplit : rows = (take i rows ++ (r, re) :: drop (S i) rows)%list).
  { rewrite <- (drop_S _ _ _ Hi). symmetry. apply take_drop. }
  fold rows in E. rewrite Hsplit, learn_loop_app in E.
  destruct (learn_loop kd nm false (take i rows)) as [[kd1 nm1] ch1].
  simpl in E. unfold learn_correction in E. fold (is_correction (cat_of r) (cat_of re)) in E.
  rewrite Hcat, Hc in E. rewrite orb_true_r in E.
  set (k := Py.lower (Name re)).
  assert (Hfor : Forall (fun ab => Py.lower (Name (snd ab)) = k ->
                    is_correction (cat_of (fst ab)) (cat_of (snd ab)) = true -> cat_of (snd ab) = c)
                   (drop (S i) rows)).
  { apply List.Forall_forall. intros [a b] Hab. simpl. intros Hk Hab_c.
    apply list_elem_of_In, list_elem_of_lookup in Hab as [m Hm].
    rewrite lookup_drop in Hm. apply lookup_zip_inv in Hm as [Ha Hb].
    destruct (apply_edits_lookup df1 edits (S i + m) a Ha) as (b' & Hb' & Hnb & Hcb).
    fold edited in Hb'. rewrite Hb in Hb'. injection Hb' as <-.
    destruct (edits !! (S i + m)) as [[c'|]|] eqn:Ej.
    - rewrite Hcb. rewrite Hcb in Hab_c. eapply Hlater; [| exact Ha | exact Ej | | exact Hab_c].
      + lia.
      + unfold k in Hk. rewrite Hnb in Hk. rewrite Hk, Hname. reflexivity.
    - rewrite Hcb, is_correction_refl in Hab_c. discriminate.
    - rewrite Hcb, is_correction_refl in Hab_c. discriminate. }
  match type of E with
  | learn_loop ?KD ?NM true _ = _ =>
      pose proof (learn_loop_keep KD NM true (drop (S i) rows) k c
                    (lookup_insert_eq _ _ _) Hfor) as Hkeep;
      pose proof (learn_loop_changed KD NM (drop (S i) rows)) as Hch
  end.
  rewrite E in Hkeep, Hch. simpl in Hkeep, Hch. subst ch.
  split; [reflexivity|].
  rewrite categorize_transactions_lookup, Hr. simpl. f_equal. f_equal.
  unfold categorize_name. rewrite normalize_trimmed by exact Hstrip.
  rewrite <- Hname. fold k. now rewrite Hkeep.
Qed.

(** ** Chatbot *)




Lemma substring_prefix (n : nat) (s : string) :
  (exists rest, s = (substring 0 n s ++ rest)%string) /\ (String.length (substring 0 n s) <= n)%nat.
Proof.
  revert n; induction s as [|c s IH]; intros [|n]; simpl.
  - split; [now exists EmptyString | lia].
  - split; [now exists EmptyString | lia].
  - split; [now exists (String c s) | lia].
  - destruct (IH n) as [[rest Hr] Hl]. split; [|lia].
    exists rest. exact (f_equal (String c) Hr).
Qed.

Lemma full_context_fold (df : DataFrame) (acc : string) :
  fold_left (fun context r => (context ++ row_context r)%string) df acc
  = (acc ++ fold_right (fun r t => (row_context r ++ t)%string) EmptyString df)%string.
Proof.
  revert acc; induction df as [|r df IH]; intros acc; simpl.
  - now rewrite sapp_nil_r.
  - rewrite IH. apply sapp_assoc.
Qed.

(** The QA context is at most 1800 characters long, is a prefix of the full context built row by row, and is that full context when it fits. *)
Theorem qa_context_prefix (df : DataFrame) :
  full_context df = fold_right (fun r t => (row_context r ++ t)%string) EmptyString df
  /\ (String.length (qa_context df) <= 1800)%nat
  /\ (exists rest, full_context df = (qa_context df ++ rest)%string)
  /\ ((String.length (full_context df) <= 1800)%nat -> qa_context df = full_context df).
Proof.
  split; [apply full_context_fold|].
  unfold qa_context. destruct (Nat.ltb_spec 1800 (String.length (full_context df))) as [Hlt|Hle].
  - destruct (substring_prefix 1800 (full_context df)) as [Hp Hl]. split; [exact Hl|].
    split; [exact Hp|]. lia.
  - split; [exact Hle|]. split; [exists EmptyString; symmetry; apply sapp_nil_r|]. reflexivity.
Qed.

(** ** File extension *)

Lemma split_char_aux_sep (sep : ascii) (cur s t : string) :
  exists l, split_char_aux sep cur (s ++ String sep t) = (l ++ split_char_aux sep EmptyString t)%list.
Proof.
  revert cur; induction s as [|c s IH]; intros cur.
  - exists [cur]. simpl. now rewrite Ascii.eqb_refl.
  - change (exists l, split_char_aux sep cur (String c (s ++ String sep t))
                      = (l ++ split_char_aux sep EmptyString t)%list).
    simpl. destruct (Ascii.eqb c sep).
    + destruct (IH EmptyString) as [l Hl]. exists (cur :: l). now rewrite Hl.
    + apply IH.
Qed.

(** The file extension is the lower-cased text after the last dot, or the whole lower-cased name when it has no dot. *)
Theorem file_ext_spec (stem e : string) :
  ~ In "."%char (L e) ->
  file_ext (stem ++ "." ++ e) = Py.lower e /\ file_ext e = Py.lower e.
Proof.
  intros He.
  assert (Hs : split_char_aux "."%char EmptyString e = [e]).
  { rewrite <- (sapp_nil_r e) at 1. rewrite split_char_aux_noseq by exact He. reflexivity. }
  unfold file_ext, split_char. split.
  - destruct (split_char_aux_sep "."%char EmptyString stem e) as [l Hl].
    change (stem ++ "." ++ e)%string with (stem ++ String "."%char e)%string.
    rewrite Hl, Hs, List.last_last. reflexivity.
  - now rewrite Hs.
Qed.

(* ================================================================== *)
(** * Witnesses: the theorems applied at concrete inputs *)

Lemma categorize_name_map_precedence_witness :
  [mkRow (mkDate 2024 1 15) "Zomato Online" "Debit" 45000 None] !! 0
    = Some (mkRow (mkDate 2024 1 15) "Zomato Online" "Debit" 45000 None)
  /\ (<["zomato online" := "Rent"]> (∅ : NameMap)) !! normalize "Zomato Online" = Some "Rent"
  /\ Category <$> categorize_transactions [mkRow (mkDate 2024 1 15) "Zomato Online" "Debit" 45000 None]
                    default_keywords (<["zomato online" := "Rent"]> ∅) !! 0 = Some (Some "Rent").
Proof.
  split; [reflexivity|]. split; [reflexivity|].
  apply (categorize_name_map_precedence _ _ _ 0 (mkRow (mkDate 2024 1 15) "Zomato Online" "Debit" 45000 None));
    reflexivity.
Defined.

Lemma categorize_first_keyword_match_witness :
  (∅ : NameMap) !! normalize "Zomato Online" = None
  /\ categorize_name default_keywords ∅ "Zomato Online" = "Food".
Proof.
  split; [reflexivity|].
  apply (categorize_first_keyword_match default_keywords ∅ "Zomato Online" "Food"); [reflexivity|].
  left. exists [], ["zomato"; "swiggy"; "restaurant"; "pizza"], (List.tl default_keywords).
  split; [reflexivity|]. split; [constructor|].
  exists "zomato", EmptyString, " online". split; [now left | reflexivity].
Defined.

Lemma learn_correction_effects_witness :
  "Rent" <> "Other" /\ Py.strip "Rent" <> EmptyString
  /\ kd_lookup "Rent" (fst (learn_correction default_keywords ∅ "Other" "Rent" "John Doe"))
     = Some ["john"; "doe"].
Proof.
  split; [discriminate|]. split; [vm_compute; discriminate|].
  pose proof (learn_correction_effects default_keywords ∅ "Other" "Rent" "John Doe") as H.
  destruct (learn_correction default_keywords ∅ "Other" "Rent" "John Doe") as [kd' nm'] eqn:E.
  destruct H as (_ & _ & H & _); [discriminate | vm_compute; discriminate |].
  simpl. rewrite H. reflexivity.
Defined.

Lemma learn_keywords_only_grow_witness :
  kd_lookup "Food" default_keywords = Some ["zomato"; "swiggy"; "restaurant"; "pizza"]
  /\ exists ext, kd_lookup "Food" (fst (learn_all default_keywords ∅
                   [mkCorrection "Other" "Food" "Pizza Hut"]))
                 = Some (["zomato"; "swiggy"; "restaurant"; "pizza"] ++ ext)%list.
Proof.
  split; [reflexivity|]. apply learn_keywords_only_grow. reflexivity.
Defined.

Lemma categorize_depends_only_on_names_witness :
  map Name [mkRow (mkDate 2023 7 4) "Uber" "Debit" 100 None]
    = map Name [mkRow (mkDate 2024 1 1) "Uber" "Credit" 999 (Some "Food")]
  /\ map Category (categorize_transactions [mkRow (mkDate 2023 7 4) "Uber" "Debit" 100 None] default_keywords ∅)
     = map Category (categorize_transactions [mkRow (mkDate 2024 1 1) "Uber" "Credit" 999 (Some "Food")]
                       default_keywords ∅).
Proof.
  split; [reflexivity|]. apply categorize_depends_only_on_names. reflexivity.
Defined.

Lemma parse_line_keeps_record_witness :
  is_transaction_line "Jul 04, 2023 Paid to Zomato Online Debit INR 1,450.50" = true
  /\ (date_capture "Jul 04, 2023 Paid to Zomato Online Debit INR 1,450.50" ≫= strptime_b_d_Y)
     = Some (mkDate 2023 7 4)
  /\ exists r, parse_lines ["Jul 04, 2023 Paid to Zomato Online Debit INR 1,450.50"] = [r]
     /\ Amount r = 145050%Z.
Proof.
  assert (Hl : is_transaction_line "Jul 04, 2023 Paid to Zomato Online Debit INR 1,450.50" = true)
    by reflexivity.
  assert (Hd : (date_capture "Jul 04, 2023 Paid to Zomato Online Debit INR 1,450.50" ≫= strptime_b_d_Y)
     = Some (mkDate 2023 7 4)) by reflexivity.
  split; [exact Hl|]. split; [exact Hd|].
  destruct (proj2 (parse_line_keeps_record _ Hl) _ Hd) as (r & Hr & _ & _ & Ha).
  assert (Hg : amount_capture "Jul 04, 2023 Paid to Zomato Online Debit INR 1,450.50"
               = Some (L "1,450.50")) by (vm_compute; reflexivity).
  destruct (Ha _ Hg) as (c & Hc & Hb).
  vm_compute in Hc. injection Hc as <-.
  exists r. split; [exact Hr|]. apply Hb. lia.
Defined.

Lemma export_layout_witness :
  In (mkRow (mkDate 2023 7 4) "Zomato Online" "Debit" 45000 (Some "Food"))
     (run_shown (main_run (parse_lines ["Jul 04, 2023 Paid to Zomato Online Debit INR 450.00"])
                  default_keywords ∅ []))
  /\ exists y4 m2 d2 ip frac,
       export_fields (mkRow (mkDate 2023 7 4) "Zomato Online" "Debit" 45000 (Some "Food"))
       = [(y4 ++ "-" ++ m2 ++ "-" ++ d2)%string; "Zomato Online"; "Debit"; (ip ++ "." ++ frac)%string; "Food"]
       /\ String.length frac = 1.
Proof.
  assert (Hin : In (mkRow (mkDate 2023 7 4) "Zomato Online" "Debit" 45000 (Some "Food"))
     (run_shown (main_run (parse_lines ["Jul 04, 2023 Paid to Zomato Online Debit INR 450.00"])
                  default_keywords ∅ []))) by (vm_compute; left; reflexivity).
  split; [exact Hin|].
  destruct (export_layout ["Jul 04, 2023 Paid to Zomato Online Debit INR 450.00"] default_keywords ∅ [])
    as [_ H];
    [apply List.Forall_forall; intros r Hr; vm_compute in Hr; destruct Hr as [<-|[]]; simpl; lia|].
  destruct (H _ Hin) as (y4 & m2 & d2 & ip & frac & Hf & _ & _ & _ & _ & _ & _ & _ & _ & _ & _ & _ & _ & H10).
  exists y4, m2, d2, ip, frac. split; [exact Hf|]. apply H10. reflexivity.
Defined.

Lemma parse_phonepe_pdf_lines_witness :
  Forall (fun ls => Forall (fun l => ~ In newline (L l)) ls)
    (map (default []) [Some ["Jul 04, 2023 Paid to Zomato Debit INR 450.00"; "Page 1"]; None])
  /\ parse_phonepe_pdf (map (option_map (String.concat (String newline EmptyString)))
                           [Some ["Jul 04, 2023 Paid to Zomato Debit INR 450.00"; "Page 1"]; None])
     = [mkRow (mkDate 2023 7 4) "Zomato" "Debit" 45000 None].
Proof.
  assert (H : Forall (fun ls => Forall (fun l => ~ In newline (L l)) ls)
    (map (default []) [Some ["Jul 04, 2023 Paid to Zomato Debit INR 450.00"; "Page 1"]; None])).
  { repeat constructor; unfold L; simpl; intros Hin;
      repeat (destruct Hin as [Hin|Hin]; [discriminate Hin|]); exact Hin. }
  split; [exact H|].
  rewrite (parse_phonepe_pdf_lines _ H). vm_compute. reflexivity.
Defined.

Lemma parse_phonepe_pdf_rows_witness :
  In (mkRow (mkDate 2023 7 4) "Zomato Online" "Debit" 45000 None)
     (parse_phonepe_pdf [None; Some "Jul 04, 2023 Paid to  Zomato Online  Debit INR 450.00"])
  /\ Py.strip (Name (mkRow (mkDate 2023 7 4) "Zomato Online" "Debit" 45000 None)) = "Zomato Online".
Proof.
  assert (H : In (mkRow (mkDate 2023 7 4) "Zomato Online" "Debit" 45000 None)
     (parse_phonepe_pdf [None; Some "Jul 04, 2023 Paid to  Zomato Online  Debit INR 450.00"]))
    by (vm_compute; left; reflexivity).
  split; [exact H|].
  exact (proj1 (proj2 (proj2 (proj2 (proj2 (parse_phonepe_pdf_rows _ _ H)))))).
Defined.

Lemma parse_line_paid_to_witness :
  Py.contains "Paid to" ("Jul 04, 2023 " ++ "Paid t") = false
  /\ Py.contains "Paid to" (" Zomato Online " ++ "Debit" ++ " INR 450.00") = false
  /\ Py.contains "Debit" (" Zomato Online " ++ "Debi") = false
  /\ parse_line ("Jul 04, 2023 " ++ "Paid to" ++ " Zomato Online " ++ "Debit" ++ " INR 450.00")
     = Some (mkRow (mkDate 2023 7 4) "Zomato Online" "Debit" 45000 None)
  /\ Name (mkRow (mkDate 2023 7 4) "Zomato Online" "Debit" 45000 None) = Py.strip " Zomato Online ".
Proof.
  assert (H1 : Py.contains "Paid to" ("Jul 04, 2023 " ++ "Paid t") = false) by reflexivity.
  assert (H2 : Py.contains "Paid to" (" Zomato Online " ++ "Debit" ++ " INR 450.00") = false)
    by reflexivity.
  assert (H3 : Py.contains "Debit" (" Zomato Online " ++ "Debi") = false) by reflexivity.
  assert (H4 : parse_line ("Jul 04, 2023 " ++ "Paid to" ++ " Zomato Online " ++ "Debit" ++ " INR 450.00")
     = Some (mkRow (mkDate 2023 7 4) "Zomato Online" "Debit" 45000 None)) by (vm_compute; reflexivity).
  split; [exact H1|]. split; [exact H2|]. split; [exact H3|]. split; [exact H4|].
  exact (proj1 (parse_line_paid_to _ _ _ _ H1 H2 H3 H4)).
Defined.

Lemma parse_line_received_from_witness :
  parse_line ("Jul 05, 2023 " ++ "Received from" ++ " Ravi Kumar " ++ "Credit" ++ " INR 1,200.00")
     = Some (mkRow (mkDate 2023 7 5) "Ravi Kumar" "Credit" 120000 None)
  /\ Name (mkRow (mkDate 2023 7 5) "Ravi Kumar" "Credit" 120000 None) = Py.strip " Ravi Kumar ".
Proof.
  assert (H6 : parse_line ("Jul 05, 2023 " ++ "Received from" ++ " Ravi Kumar " ++ "Credit" ++ " INR 1,200.00")
     = Some (mkRow (mkDate 2023 7 5) "Ravi Kumar" "Credit" 120000 None)) by (vm_compute; reflexivity).
  split; [exact H6|].
  refine (proj1 (parse_line_received_from "Jul 05, 2023 " " Ravi Kumar " " INR 1,200.00" _
                   _ _ _ _ _ H6)); vm_compute; reflexivity.
Defined.

Lemma categorize_name_case_space_witness :
  Py.lower "ZOMATO Online" = Py.lower "zomato online"
  /\ categorize_name default_keywords ∅ ("  " ++ "ZOMATO Online" ++ " ")
     = categorize_name default_keywords ∅ "zomato online".
Proof.
  split; [reflexivity|].
  apply categorize_name_case_space; reflexivity.
Defined.

Lemma main_run_no_correction_witness :
  run_changed (main_run [mkRow (mkDate 2023 7 4) "Zomato Online" "Debit" 45000 None]
                 default_keywords ∅ [Some " "]) = false
  /\ run_shown (main_run [mkRow (mkDate 2023 7 4) "Zomato Online" "Debit" 45000 None]
                 default_keywords ∅ [Some " "])
     = apply_edits (run_categorized (main_run [mkRow (mkDate 2023 7 4) "Zomato Online" "Debit" 45000 None]
                 default_keywords ∅ [Some " "])) [Some " "].
Proof.
  assert (Hc : run_changed (main_run [mkRow (mkDate 2023 7 4) "Zomato Online" "Debit" 45000 None]
                 default_keywords ∅ [Some " "]) = false) by (vm_compute; reflexivity).
  split; [exact Hc|].
  exact (proj2 (proj2 (main_run_no_correction _ _ _ _ Hc))).
Defined.

Lemma main_run_correction_sticks_witness :
  run_changed (main_run [mkRow (mkDate 2023 7 4) "Pizza Hut" "Debit" 45000 None;
                         mkRow (mkDate 2023 7 5) "Uber" "Debit" 20000 None]
                 default_keywords ∅ [Some "Treats"]) = true
  /\ Category <$> run_shown (main_run [mkRow (mkDate 2023 7 4) "Pizza Hut" "Debit" 45000 None;
                         mkRow (mkDate 2023 7 5) "Uber" "Debit" 20000 None]
                 default_keywords ∅ [Some "Treats"]) !! 0 = Some (Some "Treats").
Proof.
  apply (main_run_correction_sticks _ _ _ _ 0
           (mkRow (mkDate 2023 7 4) "Pizza Hut" "Debit" 45000 (Some "Food")));
    [vm_compute; reflexivity | reflexivity | vm_compute; reflexivity | vm_compute; reflexivity |].
  intros j r' c' Hj _ He. destruct j as [|j]; [lia|]. discriminate He.
Defined.



Lemma qa_context_prefix_witness :
  (String.length (full_context [mkRow (mkDate 2023 7 4) "Zomato Online" "Debit" 45000 (Some "Food")])
     <= 1800)%nat
  /\ qa_context [mkRow (mkDate 2023 7 4) "Zomato Online" "Debit" 45000 (Some "Food")]
     = full_context [mkRow (mkDate 2023 7 4) "Zomato Online" "Debit" 45000 (Some "Food")].
Proof.
  assert (Hl : (String.length (full_context [mkRow (mkDate 2023 7 4) "Zomato Online" "Debit" 45000 (Some "Food")])
     <= 1800)%nat) by (vm_compute; lia).
  split; [exact Hl|].
  exact (proj2 (proj2 (proj2 (qa_context_prefix _))) Hl).
Defined.

Lemma file_ext_spec_witness :
  ~ In "."%char (L "PDF") /\ file_ext ("statement.tar" ++ "." ++ "PDF") = "pdf".
Proof.
  assert (He : ~ In "."%char (L "PDF")).
  { unfold L; simpl; intros Hin; repeat (destruct Hin as [Hin|Hin]; [discriminate Hin|]); exact Hin. }
  split; [exact He|].
  rewrite (proj1 (file_ext_spec "statement.tar" "PDF" He)). reflexivity.
Defined.
